(** * ShoreSquad: the weather forecast module of [js/app.js]

    A shallow embedding of [debounce] and of the [WeatherManager] class
    (cache check, fetch, response parsing, keyword mapping, rendering and
    the fallback chain), followed by the properties established about it.

    Conventions of the embedding:
    - JavaScript strings are [string]s; [toLowerCase] folds the ASCII
      letters, which is all the keyword tests can observe;
    - times ([Date.now()]) are integers in milliseconds, calendar days are
      integers (day numbers), the locale formatting of a day is a section
      variable;
    - the parsed response body is a [json] value; property reads on it
      follow the language (reading a property of [null]/[undefined] and
      calling something that is not a function raise a [TypeError]);
    - a method runs in the monad [js]: it threads the manager object and
      the chronological list of observable effects and may raise. *)

From Stdlib Require Import ZArith QArith List String Ascii Bool Lia.
Import ListNotations.

Open Scope string_scope.
Open Scope Z_scope.

(* ================================================================== *)
(** ** Configuration *)

Module CONFIG.
Definition WEATHER_FORECAST : string :=
  "https://api.data.gov.sg/v1/environment/4-day-weather-forecast".
Definition DEBOUNCE_DELAY : Z := 300.
Definition WEATHER_CACHE_TIME : Z := 600000.
End CONFIG.

(* ================================================================== *)
(** ** Strings *)

Definition toLowerChar (c : ascii) : ascii :=
  let n := nat_of_ascii c in
  if (Nat.leb 65 n && Nat.leb n 90)%bool then ascii_of_nat (n + 32) else c.

Fixpoint toLowerCase (s : string) : string :=
  match s with
  | EmptyString => EmptyString
  | String c s' => String (toLowerChar c) (toLowerCase s')
  end.

(** [includes s p]: [s.includes(p)], [p] occurs in [s] as a substring. *)
Fixpoint includes (s p : string) : bool :=
  match s with
  | EmptyString => String.prefix p EmptyString
  | String _ s' => String.prefix p s || includes s' p
  end.

Definition nl : string := String (ascii_of_nat 10) EmptyString.
Definition dq : string := String (ascii_of_nat 34) EmptyString.

Fixpoint spaces (n : nat) : string :=
  match n with
  | O => EmptyString
  | S k => String " " (spaces k)
  end.

(* ================================================================== *)
(** ** Data model *)

Record ForecastDay := mkForecastDay {
  day : string;
  date : string;
  condition : string;
  emoji : string;
  forecast : string
}.

(** The glyph literals, byte for byte as the source file stores them. *)
Module Glyph.
Definition sunny : string := "â˜€ï¸".
Definition partly : string := "â›…".
Definition cloudy : string := "â˜ï¸".
Definition thundery : string := "â›ˆï¸".
Definition rain : string := "ðŸŒ§ï¸".
Definition wind : string := "ðŸ’¨".
Definition default : string := "ðŸŒ¤ï¸".
End Glyph.

Set Warnings "-register-all".

(** The parsed response body. An object is the list of its own properties;
    a read returns the first binding of the key. *)
Inductive json :=
| JNull
| JBool (b : bool)
| JNum (q : Q)
| JStr (s : string)
| JArr (xs : list json)
| JObj (fields : list (string * json)).

(** A JavaScript value met while reading the body: [None] is
    [undefined]. *)
Definition value := option json.

Inductive JsError :=
| NetworkError            (* the fetch promise rejects *)
| HttpError (status : Z)  (* new Error(`Weather API error: ${status}`) *)
| SyntaxError             (* response.json() rejects *)
| TypeError.

Inductive completion (A : Type) :=
| Normal (a : A)
| Throw (e : JsError).
Arguments Normal {A} a.
Arguments Throw {A} e.

Record Response := mkResponse {
  status : Z;
  body : option json   (* [None]: the body is not JSON *)
}.

Definition ok (r : Response) : bool :=
  (200 <=? status r) && (status r <=? 299).

Inductive FetchOutcome :=
| Rejected
| Responded (r : Response).

(** Observable effects, in the order they happen. *)
Inductive event :=
| ConsoleLog (msg : string)
| ConsoleWarn (msg : string) (err : JsError)
| ConsoleError (msg : string) (err : JsError)
| Fetch (url : string)
| Announce (msg : string).

(** The fields the constructor sets. [weatherGrid] is the element found
    by [getElementById] ([None] when the page has none), represented by
    its [innerHTML]; [weatherCache] starts as [null]. *)
Record WeatherManager := mkWeatherManager {
  weatherGrid : option string;
  weatherCache : option (list ForecastDay);
  lastFetchTime : Z
}.

Definition constructor (grid : option string) : WeatherManager :=
  {| weatherGrid := grid; weatherCache := None; lastFetchTime := 0 |}.

(* ================================================================== *)
(** ** The monad of methods *)

Record Sys := mkSys {
  this : WeatherManager;
  effects : list event
}.

Definition js (A : Type) : Type := Sys -> completion A * Sys.

Definition ret {A} (a : A) : js A := fun s => (Normal a, s).

Definition throw {A} (e : JsError) : js A := fun s => (Throw e, s).

Definition bind {A B} (m : js A) (k : A -> js B) : js B :=
  fun s =>
    match m s with
    | (Normal a, s') => k a s'
    | (Throw e, s') => (Throw e, s')
    end.

Definition try_catch {A} (m : js A) (handler : JsError -> js A) : js A :=
  fun s =>
    match m s with
    | (Normal a, s') => (Normal a, s')
    | (Throw e, s') => handler e s'
    end.

Definition lift {A} (c : completion A) : js A := fun s => (c, s).

Notation "x <- m ;; k" := (bind m (fun x => k))
  (at level 61, m at next level, right associativity).
Notation "m ;; k" := (bind m (fun _ => k))
  (at level 61, right associativity).

Definition emit (e : event) : js unit :=
  fun s => (Normal tt, {| this := this s; effects := effects s ++ [e] |}).

Definition get {A} (field : WeatherManager -> A) : js A :=
  fun s => (Normal (field (this s)), s).

Definition modify (f : WeatherManager -> WeatherManager) : js unit :=
  fun s => (Normal tt, {| this := f (this s); effects := effects s |}).

Definition set_weatherGrid (html : string) (w : WeatherManager) :=
  {| weatherGrid := Some html;
     weatherCache := weatherCache w;
     lastFetchTime := lastFetchTime w |}.

Definition set_weatherCache (data : list ForecastDay) (w : WeatherManager) :=
  {| weatherGrid := weatherGrid w;
     weatherCache := Some data;
     lastFetchTime := lastFetchTime w |}.

Definition set_lastFetchTime (t : Z) (w : WeatherManager) :=
  {| weatherGrid := weatherGrid w;
     weatherCache := weatherCache w;
     lastFetchTime := t |}.

Definition announceToScreenReader (message : string) : js unit :=
  emit (Announce message).

(* ================================================================== *)
(** ** Reading the body *)

Fixpoint assoc (k : string) (fields : list (string * json)) : value :=
  match fields with
  | [] => None
  | (k', v) :: rest => if String.eqb k k' then Some v else assoc k rest
  end.

Definition qzero (q : Q) : bool := (Qnum q =? 0).

(** [if (v)] / [!v]. *)
Definition truthy (v : value) : bool :=
  match v with
  | None | Some JNull => false
  | Some (JBool b) => b
  | Some (JNum q) => negb (qzero q)
  | Some (JStr s) => negb (String.eqb s "")
  | Some (JArr _) | Some (JObj _) => true
  end.

(** [v.k] for one of the names [items], [forecasts], [forecast]: an own
    property of an object, [undefined] on every other value that has
    properties. *)
Definition getNamed (v : value) (k : string) : completion value :=
  match v with
  | None | Some JNull => Throw TypeError
  | Some (JObj fields) => Normal (assoc k fields)
  | Some _ => Normal None
  end.

(** [v.length]. *)
Definition getLength (v : value) : completion value :=
  match v with
  | None | Some JNull => Throw TypeError
  | Some (JArr xs) => Normal (Some (JNum (inject_Z (Z.of_nat (List.length xs)))))
  | Some (JStr s) => Normal (Some (JNum (inject_Z (Z.of_nat (String.length s)))))
  | Some (JObj fields) => Normal (assoc "length" fields)
  | Some _ => Normal None
  end.

(** [v[0]]. *)
Definition getFirst (v : value) : completion value :=
  match v with
  | None | Some JNull => Throw TypeError
  | Some (JArr xs) => Normal (nth_error xs 0)
  | Some (JStr s) =>
      Normal (match s with
              | EmptyString => None
              | String c _ => Some (JStr (String c EmptyString))
              end)
  | Some (JObj fields) => Normal (assoc "0" fields)
  | Some _ => Normal None
  end.

(** [v === 0]. *)
Definition strictEqZero (v : value) : bool :=
  match v with
  | Some (JNum q) => qzero q
  | _ => false
  end.

(** [v.slice(0, 4).map(...)] hands its callback the first four elements
    of an array; on anything else one of the two calls raises. *)
Definition slice04 (v : value) : completion (list json) :=
  match v with
  | Some (JArr xs) => Normal (firstn 4 xs)
  | _ => Throw TypeError
  end.

(** The receiver of [.toLowerCase()] has to be a string. *)
Definition asString (v : value) : completion string :=
  match v with
  | Some (JStr s) => Normal s
  | _ => Throw TypeError
  end.

Definition cbind {A B} (c : completion A) (k : A -> completion B)
  : completion B :=
  match c with
  | Normal a => k a
  | Throw e => Throw e
  end.

(** [xs.map((x, index) => f(x, index))], the first raise aborting. *)
Fixpoint mapIndexed {A B} (f : A -> Z -> completion B) (index : Z)
    (xs : list A) : completion (list B) :=
  match xs with
  | [] => Normal []
  | x :: rest =>
      cbind (f x index) (fun y =>
      cbind (mapIndexed f (index + 1) rest) (fun ys =>
      Normal (y :: ys)))
  end.

(* ================================================================== *)
(** ** Keyword mapping *)

(** [mapWeatherCondition(forecast)], on a string argument. *)
Definition mapWeatherCondition (forecast : string) : string :=
  let text := toLowerCase forecast in
  if includes text "sunny" || includes text "fine" then "Sunny"
  else if includes text "partly" then "Partly Cloudy"
  else if includes text "cloudy" || includes text "overcast" then "Cloudy"
  else if includes text "rain" then "Rainy"
  else if includes text "thunder" || includes text "storm" then "Thundery"
  else if includes text "showers" then "Showers"
  else if includes text "wind" then "Windy"
  else forecast.

(** [getWeatherEmoji(forecast)], on a string argument. *)
Definition getWeatherEmoji (forecast : string) : string :=
  let text := toLowerCase forecast in
  if includes text "sunny" || includes text "fine" then Glyph.sunny
  else if includes text "partly" then Glyph.partly
  else if includes text "cloudy" || includes text "overcast" then Glyph.cloudy
  else if includes text "thunder" || includes text "storm" then Glyph.thundery
  else if includes text "showers" then Glyph.rain
  else if includes text "rain" then Glyph.rain
  else if includes text "wind" then Glyph.wind
  else Glyph.default.

Definition getSimulatedWeather : list ForecastDay :=
  [ {| day := "Today"; date := "Dec 2"; condition := "Sunny";
       emoji := Glyph.sunny; forecast := "Sunny" |};
    {| day := "Tomorrow"; date := "Dec 3"; condition := "Partly Cloudy";
       emoji := Glyph.partly; forecast := "Partly cloudy" |};
    {| day := "Wednesday"; date := "Dec 4"; condition := "Thundery";
       emoji := Glyph.thundery; forecast := "Thundery showers" |};
    {| day := "Thursday"; date := "Dec 5"; condition := "Rainy";
       emoji := Glyph.rain; forecast := "Rainy" |} ].

(* ================================================================== *)
(** ** Rendering *)

(** One iteration of the template literal of [renderWeather]. *)
Definition card (weather : ForecastDay) : string :=
  nl ++ spaces 12 ++ "<div class=" ++ dq ++ "weather-card" ++ dq
     ++ " role=" ++ dq ++ "region" ++ dq
     ++ " aria-label=" ++ dq ++ "Weather for " ++ day weather ++ dq ++ ">"
  ++ nl ++ spaces 16 ++ "<h4>" ++ day weather ++ "</h4>"
  ++ nl ++ spaces 16 ++ "<p class=" ++ dq ++ "weather-date" ++ dq ++ ">"
     ++ date weather ++ "</p>"
  ++ nl ++ spaces 16 ++ "<div style=" ++ dq
     ++ "font-size: 2.5rem; margin: 1rem 0;" ++ dq ++ ">"
     ++ emoji weather ++ "</div>"
  ++ nl ++ spaces 16 ++ "<p class=" ++ dq ++ "weather-condition" ++ dq
     ++ "><strong>" ++ condition weather ++ "</strong></p>"
  ++ nl ++ spaces 16 ++ "<p style=" ++ dq
     ++ "font-size: 0.9rem; opacity: 0.9;" ++ dq ++ ">"
     ++ "{{ weather.forecast }}" ++ "</p>"
  ++ nl ++ spaces 12 ++ "</div>"
  ++ nl ++ spaces 8.

(** [data.map(weather => `...`).join('')]. *)
Definition cards (data : list ForecastDay) : string :=
  String.concat "" (map card data).

Definition renderWeather (data : list ForecastDay) : js unit :=
  grid <- get weatherGrid ;;
  match grid with
  | None => ret tt
  | Some _ =>
      modify (set_weatherGrid (cards data)) ;;
      emit (ConsoleLog "Weather cards rendered successfully")
  end.

Definition fallbackHTML : string :=
  nl ++ spaces 12 ++ "<div class=" ++ dq ++ "weather-card" ++ dq
     ++ " style=" ++ dq ++ "grid-column: 1/-1; text-align: center;" ++ dq
     ++ ">"
  ++ nl ++ spaces 16 ++ "<p style=" ++ dq ++ "margin: 0; opacity: 0.7;"
     ++ dq ++ ">"
  ++ nl ++ spaces 20
     ++ "Unable to fetch live weather data. Please check the NEA API connection."
  ++ nl ++ spaces 16 ++ "</p>"
  ++ nl ++ spaces 12 ++ "</div>"
  ++ nl ++ spaces 8.

Definition renderWeatherFallback : js unit :=
  grid <- get weatherGrid ;;
  match grid with
  | None => ret tt
  | Some _ => modify (set_weatherGrid fallbackHTML)
  end.

(* ================================================================== *)
(** ** Parsing and fetching *)

Section Weather.

(** [d.toLocaleDateString('en-SG', { weekday: 'short' })] and
    [d.toLocaleDateString('en-SG', { month: 'short', day: 'numeric' })]
    of the day numbered [d]. *)
Variable weekdayShort : Z -> string.
Variable monthDay : Z -> string.

(** [formatDay(date)], [today] being the day of [new Date()]. *)
Definition formatDay (today date : Z) : string :=
  let tomorrow := today + 1 in
  if date =? today then "Today"
  else if date =? tomorrow then "Tomorrow"
  else weekdayShort date.

(** The callback of [map] in [parseNEAResponse]. *)
Definition forecastDayOf (today : Z) (dayForecast : json) (index : Z)
  : completion ForecastDay :=
  let forecastDate := today + index in
  cbind (getNamed (Some dayForecast) "forecast") (fun raw =>
  cbind (asString raw) (fun text =>
  Normal {| day := formatDay today forecastDate;
            date := monthDay forecastDate;
            condition := mapWeatherCondition text;
            forecast := text;
            emoji := getWeatherEmoji text |})).

Definition parseNEAResponse (today : Z) (data : json)
  : js (list ForecastDay) :=
  try_catch
    (items <- lift (getNamed (Some data) "items") ;;
     empty <- (if negb (truthy items) then ret true
               else len <- lift (getLength items) ;;
                    ret (strictEqZero len)) ;;
     if (empty : bool) then ret getSimulatedWeather
     else
       first <- lift (getFirst items) ;;
       forecasts <- lift (getNamed first "forecasts") ;;
       entries <- lift (slice04 forecasts) ;;
       lift (mapIndexed (forecastDayOf today) 0 entries))
    (fun err =>
       emit (ConsoleWarn "Error parsing NEA response:" err) ;;
       ret getSimulatedWeather).

(** [await fetch(url)]: one network access, answered by [outcome]. *)
Definition fetch (url : string) (outcome : FetchOutcome) : js Response :=
  emit (Fetch url) ;;
  match outcome with
  | Rejected => throw NetworkError
  | Responded r => ret r
  end.

(** [await response.json()]. *)
Definition response_json (r : Response) : js json :=
  match body r with
  | None => throw SyntaxError
  | Some data => ret data
  end.

(** [fetchWeather()]. [now] is what [Date.now()] returns, [today] the
    day of the [new Date()] calls made while parsing, [outcome] what
    the network answers if it is asked. *)
Definition fetchWeather (now today : Z) (outcome : FetchOutcome)
  : js unit :=
  (* the part of the try block after the cache check *)
  let refetch : js unit :=
    emit (ConsoleLog "Fetching NEA weather data...") ;;
    response <- fetch CONFIG.WEATHER_FORECAST outcome ;;
    (if negb (ok response) then throw (HttpError (status response))
     else ret tt) ;;
    data <- response_json response ;;
    weatherData <- parseNEAResponse today data ;;
    modify (set_weatherCache weatherData) ;;
    modify (set_lastFetchTime now) ;;
    renderWeather weatherData ;;
    announceToScreenReader "Weather forecast updated" in
  try_catch
    (cache <- get weatherCache ;;
     lastFetch <- get lastFetchTime ;;
     match cache with
     | Some cached =>
         if now - lastFetch <? CONFIG.WEATHER_CACHE_TIME then
           emit (ConsoleLog "Using cached weather data") ;;
           renderWeather cached
         else refetch
     | None => refetch
     end)
    (fun err =>
       emit (ConsoleError "Weather fetch error:" err) ;;
       announceToScreenReader
         "Could not load weather data. Showing cached data." ;;
       cache <- get weatherCache ;;
       match cache with
       | Some cached => renderWeather cached
       | None => renderWeatherFallback
       end).

(** One execution of [fetchWeather] on the manager [w], its effects
    recorded from the start of the call. *)
Definition refresh (now today : Z) (outcome : FetchOutcome)
    (w : WeatherManager) : completion unit * Sys :=
  fetchWeather now today outcome {| this := w; effects := [] |}.

End Weather.

(* ================================================================== *)
(** ** Timers and [debounce] *)

Module EventLoop.
Section Timers.

(** What a timer does when it fires; for a debounced function, the
    arguments [func] is applied to. *)
Variable A : Type.

Record timer := mkTimer {
  timerId : nat;
  due : Z;
  args : A
}.

(** The host's timer table: the current time, the next free timer id,
    the timers set and neither fired nor cleared, and the applications
    of [func] made so far, oldest first. *)
Record loop := mkLoop {
  clock : Z;
  nextId : nat;
  pending : list timer;
  applied : list A
}.

Definition drop (id : nat) (timers : list timer) : list timer :=
  filter (fun tm => negb (Nat.eqb (timerId tm) id)) timers.

Definition setTimeout (a : A) (delay : Z) (l : loop) : nat * loop :=
  (nextId l,
   {| clock := clock l;
      nextId := S (nextId l);
      pending := pending l ++ [mkTimer (nextId l) (clock l + delay) a];
      applied := applied l |}).

(** [clearTimeout(undefined)] does nothing. *)
Definition clearTimeout (id : option nat) (l : loop) : loop :=
  match id with
  | None => l
  | Some n =>
      {| clock := clock l;
         nextId := nextId l;
         pending := drop n (pending l);
         applied := applied l |}
  end.

(** The closure [debounce(func, delay)] returns: its captured [delay]
    and its variable [timeoutId]. *)
Record debounced := mkDebounced {
  delay : Z;
  timeoutId : option nat
}.

Definition debounce (delay : Z) : debounced :=
  {| delay := delay; timeoutId := None |}.

(** A call of the closure with arguments [a], made at time [t]. *)
Definition invoke (a : A) (t : Z) (st : debounced * loop)
  : debounced * loop :=
  let (d, l) := st in
  let l0 := {| clock := t; nextId := nextId l;
               pending := pending l; applied := applied l |} in
  let l1 := clearTimeout (timeoutId d) l0 in
  let (id, l2) := setTimeout a (delay d) l1 in
  ({| delay := delay d; timeoutId := Some id |}, l2).

(** The timer [tm] fires at time [t]: [func.apply(this, args)]. *)
Definition fire (tm : timer) (t : Z) (l : loop) : loop :=
  {| clock := t;
     nextId := nextId l;
     pending := drop (timerId tm) (pending l);
     applied := applied l ++ [args tm] |}.

(** The host fires a pending timer no earlier than it is due. *)
Inductive fires : loop -> loop -> Prop :=
| fires_none : forall l, fires l l
| fires_next : forall l tm t l',
    In tm (pending l) -> due tm <= t -> clock l <= t ->
    fires (fire tm t l) l' ->
    fires l l'.

End Timers.
End EventLoop.

Arguments EventLoop.mkLoop {A}.
Arguments EventLoop.timerId {A}.
Arguments EventLoop.due {A}.
Arguments EventLoop.args {A}.
Arguments EventLoop.drop {A}.
Arguments EventLoop.setTimeout {A}.
Arguments EventLoop.clearTimeout {A}.
Arguments EventLoop.fires_none {A}.
Arguments EventLoop.fires_next {A}.
Arguments EventLoop.mkTimer {A}.
Arguments EventLoop.clock {A}.
Arguments EventLoop.pending {A}.
Arguments EventLoop.applied {A}.
Arguments EventLoop.nextId {A}.
Arguments EventLoop.invoke {A}.
Arguments EventLoop.fire {A}.
Arguments EventLoop.fires {A}.

(** [this.loadWeatherData = debounce(() => this.fetchWeather(),
    CONFIG.DEBOUNCE_DELAY)]: each application of [func] is one execution
    of [fetchWeather]; the arrow function takes no arguments, a request
    is told from another by its number. *)
Definition loadWeatherData : EventLoop.debounced :=
  EventLoop.debounce CONFIG.DEBOUNCE_DELAY.

(* ================================================================== *)
(** ** Repeated executions *)

Section Schedule.

Variable weekdayShort : Z -> string.
Variable monthDay : Z -> string.

(** [init()] runs [fetchWeather] once and again at every tick of
    [setInterval]; an execution is given by what [Date.now()], the
    calendar and the network answer it. The executions run one after the
    other on the same manager, their effects in order. *)
Fixpoint executions (runs : list (Z * Z * FetchOutcome)) (s : Sys) : Sys :=
  match runs with
  | [] => s
  | (now, today, outcome) :: rest =>
      executions rest
        (snd (fetchWeather weekdayShort monthDay now today outcome s))
  end.

End Schedule.

(* ================================================================== *)
(** ** Runs of a debounced function *)

(** [xs] is [ys] with some elements left out. *)
Inductive subsequence {A : Type} : list A -> list A -> Prop :=
| subsequence_nil : subsequence [] []
| subsequence_skip : forall xs y ys,
    subsequence xs ys -> subsequence xs (y :: ys)
| subsequence_take : forall x xs ys,
    subsequence xs ys -> subsequence (x :: xs) (x :: ys).

(** What a closure [debounce(func, delay)] and the host's timer table
    can have come to, from the closure's creation on, by calls of the
    closure and firings of its timers at times that do not decrease;
    [calls] lists the arguments of the calls made, oldest first. *)
Inductive debounceRun {A : Type} (delay : Z)
  : EventLoop.debounced * EventLoop.loop A -> list A -> Prop :=
| debounceRun_start : forall t0,
    debounceRun delay
      (EventLoop.debounce delay, EventLoop.mkLoop t0 0%nat [] []) []
| debounceRun_call : forall st calls a t,
    debounceRun delay st calls ->
    EventLoop.clock (snd st) <= t ->
    debounceRun delay (EventLoop.invoke a t st) (calls ++ [a])
| debounceRun_fire : forall d l calls tm t,
    debounceRun delay (d, l) calls ->
    In tm (EventLoop.pending l) ->
    EventLoop.due tm <= t ->
    EventLoop.clock l <= t ->
    debounceRun delay (d, EventLoop.fire tm t l) calls.

(** A burst: calls of the closure, the host firing what it may before
    each; it ends right after the last call. *)
Inductive burst {A : Type}
  : EventLoop.debounced * EventLoop.loop A -> list (A * Z) ->
    EventLoop.debounced * EventLoop.loop A -> Prop :=
| burst_done : forall st, burst st [] st
| burst_call : forall d l l1 a t rest st',
    EventLoop.fires l l1 ->
    EventLoop.clock l1 <= t ->
    burst (EventLoop.invoke a t (d, l1)) rest st' ->
    burst (d, l) ((a, t) :: rest) st'.

(** Each call of the list comes less than [gap] ms after the one before
    it, the first less than [gap] after [t]. *)
Fixpoint within (gap t : Z) (calls : list Z) : Prop :=
  match calls with
  | [] => True
  | t' :: rest => t' - t < gap /\ within gap t' rest
  end.

(* ================================================================== *)
(** ** [throttle] *)

Module Throttle.
Section Throttled.

(** The arguments [func] is applied to. *)
Variable A : Type.

(** What one application of [func] does that the closure can tell: the
    calls of the closure it makes itself, in order, each with what
    [func] does if that call applies it, and whether it ends by
    raising. *)
Inductive behaviour :=
| Behaviour (nested : list (A * behaviour)) (raises : bool).

(** [func] returns without calling the closure. *)
Definition quiet : behaviour := Behaviour [] false.

(** The closure [throttle(func, limit)] returns, with the host's clock
    and timers: its captured [limit], its variable [inThrottle]
    ([undefined] at first, which tests as [false]), the due times of the
    timers set and not yet fired, and the applications of [func] begun
    so far with their times, oldest first. *)
Record throttled := mkThrottled {
  limit : Z;
  inThrottle : bool;
  clock : Z;
  resets : list Z;
  applied : list (A * Z)
}.

Definition throttle (limit : Z) (t0 : Z) : throttled :=
  {| limit := limit; inThrottle := false; clock := t0;
     resets := []; applied := [] |}.

(** A call of the closure with arguments [a], made at time [t], [func]
    behaving as [beh] if it is applied: the state afterwards, and
    whether the call raised. [func.apply] comes first; the flag and the
    timer are set only once it has returned. *)
Fixpoint invoke (a : A) (beh : behaviour) (t : Z) (st : throttled)
  {struct beh} : throttled * bool :=
  if negb (inThrottle st) then
    match beh with
    | Behaviour nested raises =>
        let begun :=
          {| limit := limit st;
             inThrottle := inThrottle st;
             clock := t;
             resets := resets st;
             applied := applied st ++ [(a, t)] |} in
        let returned :=
          (fix calls (cs : list (A * behaviour)) (s : throttled)
             : throttled :=
             match cs with
             | [] => s
             | (a', beh') :: rest => calls rest (fst (invoke a' beh' t s))
             end) nested begun in
        if raises then (returned, true)
        else
          ({| limit := limit returned;
              inThrottle := true;
              clock := t;
              resets := resets returned ++ [t + limit returned];
              applied := applied returned |},
           false)
    end
  else
    ({| limit := limit st;
        inThrottle := inThrottle st;
        clock := t;
        resets := resets st;
        applied := applied st |},
     false).

Fixpoint removeOne (due : Z) (timers : list Z) : list Z :=
  match timers with
  | [] => []
  | d :: rest => if d =? due then rest else d :: removeOne due rest
  end.

(** A timer due at [due] fires at time [t]: [inThrottle = false]. *)
Definition fire (due t : Z) (st : throttled) : throttled :=
  {| limit := limit st;
     inThrottle := false;
     clock := t;
     resets := removeOne due (resets st);
     applied := applied st |}.

(** What the closure can have come to, from its creation on, by calls
    in which [func] behaves in one of the [allowed] ways and by firings
    of its timers, no earlier than they are due, at times that do not
    decrease. *)
Inductive run (lim : Z) (allowed : behaviour -> Prop) : throttled -> Prop :=
| run_start : forall t0, run lim allowed (throttle lim t0)
| run_call : forall st a beh t,
    run lim allowed st -> allowed beh -> clock st <= t ->
    run lim allowed (fst (invoke a beh t st))
| run_fire : forall st due t,
    run lim allowed st -> In due (resets st) -> due <= t -> clock st <= t ->
    run lim allowed (fire due t st).

End Throttled.
End Throttle.

Arguments Throttle.Behaviour {A}.
Arguments Throttle.quiet {A}.
Arguments Throttle.mkThrottled {A}.
Arguments Throttle.limit {A}.
Arguments Throttle.inThrottle {A}.
Arguments Throttle.clock {A}.
Arguments Throttle.resets {A}.
Arguments Throttle.applied {A}.
Arguments Throttle.invoke {A}.
Arguments Throttle.fire {A}.
Arguments Throttle.run {A}.

(** Consecutive times at least [gap] apart. *)
Fixpoint apart (gap : Z) (times : list Z) : Prop :=
  match times with
  | [] => True
  | t :: rest =>
      match rest with
      | [] => True
      | u :: _ => t + gap <= u
      end /\ apart gap rest
  end.

(* ================================================================== *)
(** ** Elements, the navigation menu and the filter buttons *)

Module DOM.

(** What the managers touch of an element: the tokens of its
    [classList], in order and without repeats, and its other attributes
    (the names used are lower-case already). *)
Record element := mkElement {
  classList : list string;
  attributes : list (string * string)
}.

(** [e.classList.contains(token)]. *)
Definition contains (token : string) (e : element) : bool :=
  existsb (String.eqb token) (classList e).

(** [e.classList.add(token)]. *)
Definition classAdd (token : string) (e : element) : element :=
  if contains token e then e
  else {| classList := classList e ++ [token];
          attributes := attributes e |}.

(** [e.classList.remove(token)]. *)
Definition classRemove (token : string) (e : element) : element :=
  {| classList := filter (fun c => negb (String.eqb token c)) (classList e);
     attributes := attributes e |}.

Fixpoint lookup (name : string) (attrs : list (string * string))
  : option string :=
  match attrs with
  | [] => None
  | (n, v) :: rest => if String.eqb name n then Some v else lookup name rest
  end.

Fixpoint update (name value : string) (attrs : list (string * string))
  : list (string * string) :=
  match attrs with
  | [] => [(name, value)]
  | (n, v) :: rest =>
      if String.eqb name n then (n, value) :: rest
      else (n, v) :: update name value rest
  end.

(** [e.getAttribute(name)], [None] for [null]. *)
Definition getAttribute (name : string) (e : element) : option string :=
  lookup name (attributes e).

(** [e.setAttribute(name, value)]. *)
Definition setAttribute (name value : string) (e : element) : element :=
  {| classList := classList e;
     attributes := update name value (attributes e) |}.

End DOM.

Module NavigationManager.

(** The two elements the constructor finds; the methods are reached only
    through the listeners [init()] adds when both exist. *)
Record manager := mkManager {
  hamburger : DOM.element;
  menu : DOM.element
}.

Definition openMenu (nav : manager) : manager * list event :=
  ({| hamburger := DOM.setAttribute "aria-expanded" "true" (hamburger nav);
      menu := DOM.classAdd "active" (menu nav) |},
   [Announce "Navigation menu opened"]).

Definition closeMenu (nav : manager) : manager * list event :=
  ({| hamburger := DOM.setAttribute "aria-expanded" "false" (hamburger nav);
      menu := DOM.classRemove "active" (menu nav) |},
   []).

Definition toggleMenu (nav : manager) : manager * list event :=
  let isOpen := DOM.contains "active" (menu nav) in
  if isOpen then closeMenu nav else openMenu nav.

(** What a visitor does: a click on the hamburger button, or on a link
    of the menu. *)
Inductive click := ClickHamburger | ClickLink.

Definition handle (c : click) (nav : manager) : manager * list event :=
  match c with
  | ClickHamburger => toggleMenu nav
  | ClickLink => closeMenu nav
  end.

Fixpoint handleAll (clicks : list click) (nav : manager)
  : manager * list event :=
  match clicks with
  | [] => (nav, [])
  | c :: rest =>
      let (nav1, tr1) := handle c nav in
      let (nav2, tr2) := handleAll rest nav1 in
      (nav2, (tr1 ++ tr2)%list)
  end.

End NavigationManager.

Module FilterManager.

Fixpoint updateAt {A} (i : nat) (f : A -> A) (xs : list A) : list A :=
  match xs, i with
  | [], _ => []
  | x :: rest, O => f x :: rest
  | x :: rest, S k => x :: updateAt k f rest
  end.

(** [`${v}`] of an attribute value that may be [undefined]. *)
Definition display (v : option string) : string :=
  match v with
  | Some s => s
  | None => "undefined"
  end.

(** [applyFilter(button)] on the list [filterButtons]. [init()] attaches
    it to the buttons of that list only, so the button is given by its
    position [i]; a position outside the list is no button. *)
Definition applyFilter (i : nat) (filterButtons : list DOM.element)
  : option (list DOM.element * list event) :=
  let cleared :=
    map (fun btn =>
           DOM.setAttribute "aria-pressed" "false"
             (DOM.classRemove "active" btn))
        filterButtons in
  match nth_error cleared i with
  | None => None
  | Some button =>
      let pressed :=
        updateAt i
          (fun btn =>
             DOM.setAttribute "aria-pressed" "true"
               (DOM.classAdd "active" btn))
          cleared in
      let filter := DOM.getAttribute "data-filter" button in
      Some (pressed,
            [Announce ("Filter applied: " ++ display filter);
             ConsoleLog ("Filter applied: " ++ display filter)])
  end.

End FilterManager.

(* ================================================================== *)
(** ** [Storage] *)

Module Storage.
Section Host.

(** [JSON.parse], [None] where it raises, and [JSON.stringify] on the
    values [JSON.parse] can return. *)
Variable JSON_parse : string -> option json.
Variable JSON_stringify : json -> string.

(** [localStorage]: whether the page may use it at all (touching it
    raises otherwise), and its items. *)
Record storage := mkStorage {
  available : bool;
  items : string -> option string
}.

(** Whether [setItem(key, text)] fits the quota; it raises otherwise. *)
Variable fits : storage -> string -> string -> bool.

Definition getItem (key : string) (s : storage) : option (option string) :=
  if available s then Some (items s key) else None.

Definition setItem (key text : string) (s : storage) : option storage :=
  if available s && fits s key text then
    Some {| available := available s;
            items := fun k => if String.eqb k key then Some text
                              else items s k |}
  else None.

Definition removeItem (key : string) (s : storage) : option storage :=
  if available s then
    Some {| available := available s;
            items := fun k => if String.eqb k key then None else items s k |}
  else None.

(** [Storage.get(key, defaultValue)]: the value, and the warnings
    logged. *)
Definition get (key : string) (defaultValue : json) (s : storage)
  : json * list string :=
  match getItem key s with
  | None => (defaultValue, ["Storage.get error for " ++ key ++ ":"])
  | Some None => (defaultValue, [])
  | Some (Some item) =>
      if String.eqb item "" then (defaultValue, [])
      else match JSON_parse item with
           | Some value => (value, [])
           | None => (defaultValue, ["Storage.get error for " ++ key ++ ":"])
           end
  end.

(** [Storage.set(key, value)]: the boolean returned, the storage
    afterwards and the warnings logged. *)
Definition set (key : string) (value : json) (s : storage)
  : bool * storage * list string :=
  match setItem key (JSON_stringify value) s with
  | Some s' => (true, s', [])
  | None => (false, s, ["Storage.set error for " ++ key ++ ":"])
  end.

(** [Storage.remove(key)]. *)
Definition remove (key : string) (s : storage)
  : bool * storage * list string :=
  match removeItem key s with
  | Some s' => (true, s', [])
  | None => (false, s, ["Storage.remove error for " ++ key ++ ":"])
  end.

End Host.
End Storage.

(* ================================================================== *)
(** ** A page without a body *)

Section Page.

Variable weekdayShort : Z -> string.
Variable monthDay : Z -> string.

(** [announceToScreenReader(message)] where the page may have no body:
    [document.body.appendChild(announcement)] is then a call on [null],
    which raises a [TypeError]. *)
Definition announceOnPage (hasBody : bool) (message : string) : js unit :=
  if hasBody then announceToScreenReader message else throw TypeError.

(** [fetchWeather()] on such a page; with a body it is [fetchWeather]. *)
Definition fetchWeatherOnPage (hasBody : bool) (now today : Z)
    (outcome : FetchOutcome) : js unit :=
  let refetch : js unit :=
    emit (ConsoleLog "Fetching NEA weather data...") ;;
    response <- fetch CONFIG.WEATHER_FORECAST outcome ;;
    (if negb (ok response) then throw (HttpError (status response))
     else ret tt) ;;
    data <- response_json response ;;
    weatherData <- parseNEAResponse weekdayShort monthDay today data ;;
    modify (set_weatherCache weatherData) ;;
    modify (set_lastFetchTime now) ;;
    renderWeather weatherData ;;
    announceOnPage hasBody "Weather forecast updated" in
  try_catch
    (cache <- get weatherCache ;;
     lastFetch <- get lastFetchTime ;;
     match cache with
     | Some cached =>
         if now - lastFetch <? CONFIG.WEATHER_CACHE_TIME then
           emit (ConsoleLog "Using cached weather data") ;;
           renderWeather cached
         else refetch
     | None => refetch
     end)
    (fun err =>
       emit (ConsoleError "Weather fetch error:" err) ;;
       announceOnPage hasBody
         "Could not load weather data. Showing cached data." ;;
       cache <- get weatherCache ;;
       match cache with
       | Some cached => renderWeather cached
       | None => renderWeatherFallback
       end).

End Page.

(* ================================================================== *)
(** ** Vocabulary of the properties *)

Definition updated_message : string := "Weather forecast updated".
Definition degraded_message : string :=
  "Could not load weather data. Showing cached data.".

Definition isFetch (e : event) : bool :=
  match e with
  | Fetch _ => true
  | _ => false
  end.

(** Number of network accesses among the effects. *)
Definition networkAccesses (tr : list event) : nat :=
  List.length (filter isFetch tr).

(** The manager after an execution, and what the execution did. *)
Definition after {A} (r : completion A * Sys) : WeatherManager := this (snd r).
Definition trace {A} (r : completion A * Sys) : list event := effects (snd r).

(** The grid element, where the page has one, holds [html] in [w']. *)
Definition shows (html : string) (w w' : WeatherManager) : Prop :=
  weatherGrid w' = option_map (fun _ => html) (weatherGrid w).

(** Network error or non-2xx status. *)
Definition transportFails (outcome : FetchOutcome) : bool :=
  match outcome with
  | Rejected => true
  | Responded r => negb (ok r)
  end.

(** What the try block of [fetchWeather] raises on [outcome], if the
    network is asked: transport failure, or a body that is not JSON. *)
Definition failureOf (outcome : FetchOutcome) : option JsError :=
  match outcome with
  | Rejected => Some NetworkError
  | Responded r =>
      if negb (ok r) then Some (HttpError (status r))
      else match body r with
           | None => Some SyntaxError
           | Some _ => None
           end
  end.

(** The cache is absent or no longer valid at [now]: the network is
    asked. *)
Definition refetches (w : WeatherManager) (now : Z) : Prop :=
  weatherCache w = None \/ CONFIG.WEATHER_CACHE_TIME <= now - lastFetchTime w.

(** [data.items], [undefined] on a body without such a property. *)
Definition itemsOf (data : json) : value :=
  match data with
  | JObj fields => assoc "items" fields
  | _ => None
  end.

(** The body's items collection is missing or empty. *)
Definition missingOrEmpty (data : json) : bool :=
  match itemsOf data with
  | None => true
  | Some (JArr []) => true
  | Some _ => false
  end.

(** The keyword rules in the order the specification gives them (4.1,
    step 3): keywords, condition, glyph; the first rule with a keyword
    that occurs in the lower-cased text wins. *)
Definition specRules : list (list string * (string * string)) :=
  [ (["sunny"; "fine"], ("Sunny", Glyph.sunny));
    (["partly"], ("Partly Cloudy", Glyph.partly));
    (["cloudy"; "overcast"], ("Cloudy", Glyph.cloudy));
    (["thunder"; "storm"], ("Thundery", Glyph.thundery));
    (["showers"], ("Showers", Glyph.rain));
    (["rain"], ("Rainy", Glyph.rain));
    (["wind"], ("Windy", Glyph.wind)) ].

Fixpoint firstMatch (text : string)
    (rules : list (list string * (string * string)))
  : option (string * string) :=
  match rules with
  | [] => None
  | (keywords, result) :: rest =>
      if existsb (includes text) keywords then Some result
      else firstMatch text rest
  end.

Definition specCondition (forecast : string) : string :=
  match firstMatch (toLowerCase forecast) specRules with
  | Some (label, _) => label
  | None => forecast
  end.

Definition specEmoji (forecast : string) : string :=
  match firstMatch (toLowerCase forecast) specRules with
  | Some (_, glyph) => glyph
  | None => Glyph.default
  end.

Definition rendered (html : string) (w : WeatherManager) : WeatherManager :=
  match weatherGrid w with
  | None => w
  | Some _ => set_weatherGrid html w
  end.

Definition renderLog (w : WeatherManager) : list event :=
  match weatherGrid w with
  | None => []
  | Some _ => [ConsoleLog "Weather cards rendered successfully"]
  end.

Definition parseWarning : list event :=
  [ConsoleWarn "Error parsing NEA response:" TypeError].

(** A computation that only reads the body: it leaves the system as
    it is and can only raise a [TypeError]. *)
Definition reads {A} (m : js A) : Prop :=
  exists c : completion A,
    (forall e, c = Throw e -> e = TypeError) /\ forall s, m s = (c, s).

(** A fixed calendar and a few managers and bodies, for the concrete
    executions below. *)
Definition sampleWeekday (d : Z) : string := "Wed".
Definition sampleMonthDay (d : Z) : string := "Dec 4".

Definition staleForecast : list ForecastDay :=
  [ {| day := "Today"; date := "Dec 1"; condition := "Windy";
       emoji := Glyph.wind; forecast := "Windy" |} ].

Definition cachedManager : WeatherManager :=
  {| weatherGrid := Some "";
     weatherCache := Some staleForecast;
     lastFetchTime := 1000 |}.

Definition emptyItems : json := JObj [("items", JArr [])].

(** A body whose first item has no forecast list to slice. *)
Definition nullForecasts : json :=
  JObj [("items", JArr [JObj [("forecasts", JNull)]])].

Definition respond (code : Z) (data : option json) : FetchOutcome :=
  Responded {| status := code; body := data |}.

(** Every pending timer of the table is the one the closure remembers
    in [timeoutId]: what holds of the table of a debounced function from
    its creation on. *)
Definition ownsTimers {A} (d : EventLoop.debounced) (l : EventLoop.loop A)
  : Prop :=
  forall tm, In tm (EventLoop.pending l) ->
             EventLoop.timeoutId d = Some (EventLoop.timerId tm).

(** The timer table of a page on which no timer is set, at time 0. *)
Definition idleLoop : EventLoop.loop nat :=
  EventLoop.mkLoop 0 0%nat [] [].

(** [data.items[0].forecasts] of a body of the documented shape
    [{ items: [ { forecasts: [...] }, ... ] }]. *)
Definition forecastsOf (data : json) : option (list json) :=
  match data with
  | JObj fields =>
      match assoc "items" fields with
      | Some (JArr (JObj item :: _)) =>
          match assoc "forecasts" item with
          | Some (JArr entries) => Some entries
          | _ => None
          end
      | _ => None
      end
  | _ => None
  end.

(** The [forecast] text of an entry [{ area, forecast }], where it is an
    object with such a string. *)
Definition forecastText (entry : json) : option string :=
  match entry with
  | JObj fields =>
      match assoc "forecast" fields with
      | Some (JStr text) => Some text
      | _ => None
      end
  | _ => None
  end.

Definition isAnnounce (e : event) : bool :=
  match e with
  | Announce _ => true
  | _ => false
  end.

(** The notifications among the effects. *)
Definition announcements (tr : list event) : list event :=
  filter isAnnounce tr.

(** Consecutive times at least [gap] ms apart, the first at least [gap]
    after [prev]. *)
Fixpoint spacedFrom (gap prev : Z) (times : list Z) : Prop :=
  match times with
  | [] => True
  | t :: rest => prev + gap <= t /\ spacedFrom gap t rest
  end.

(** A method only appends to the effects: run after [tr] it does what it
    does from the empty log, after [tr]. *)
Definition framed {A} (m : js A) : Prop :=
  forall w tr,
    m {| this := w; effects := tr |} =
    (fst (m {| this := w; effects := [] |}),
     {| this := this (snd (m {| this := w; effects := [] |}));
        effects := tr ++ effects (snd (m {| this := w; effects := [] |})) |}).

(** The [n] days from [d] on. *)
Fixpoint datesFrom (d : Z) (n : nat) : list Z :=
  match n with
  | O => []
  | S k => d :: datesFrom (d + 1) k
  end.

(** Bodies of the documented shape, for the concrete executions. *)
Definition entryOf (text : string) : json :=
  JObj [("area", JStr "Singapore"); ("forecast", JStr text)].

Definition bodyOf (entries : list json) : json :=
  JObj [("items", JArr [JObj [("forecasts", JArr entries)]])].

(** A menu and filter buttons as a page may have them. *)
Definition sampleNavigation : NavigationManager.manager :=
  {| NavigationManager.hamburger :=
       DOM.mkElement ["hamburger"] [("aria-label", "Menu")];
     NavigationManager.menu := DOM.mkElement ["navbar-menu"] [] |}.

Definition sampleButtons : list DOM.element :=
  [DOM.mkElement ["filter-btn"; "active"]
     [("data-filter", "all"); ("aria-pressed", "true")];
   DOM.mkElement ["filter-btn"] [("data-filter", "nearby")];
   DOM.mkElement ["filter-btn"] []].

(** A host whose [JSON.stringify] and [JSON.parse] are known on one
    value only, and a storage with one stale item. *)
Definition sampleStringify (v : json) : string := "7".
Definition sampleParse (text : string) : option json :=
  if String.eqb text "7" then Some (JNum (inject_Z 7)) else None.
Definition sampleFits (s : Storage.storage) (key text : string) : bool :=
  Nat.leb (String.length text) 4.
Definition sampleStorage : Storage.storage :=
  {| Storage.available := true;
     Storage.items := fun k => if String.eqb k "draft" then Some "{oops"
                               else None |}.

(* ================================================================== *)
(** ** The keyword chains against the specified rule list *)

(** [getWeatherEmoji] is the specified first-match rule list. *)
Lemma getWeatherEmoji_specEmoji (forecast : string) :
  getWeatherEmoji forecast = specEmoji forecast.
Proof.
  unfold getWeatherEmoji, specEmoji, specRules.
  cbn [firstMatch existsb]. rewrite !orb_false_r.
  repeat match goal with
         | |- context [includes ?t ?k] => destruct (includes t k); cbn
         end; reflexivity.
Qed.

(** [mapWeatherCondition] is the specified rule list on every text
    without "rain", the one keyword it tests earlier than specified. *)
Lemma mapWeatherCondition_specCondition (forecast : string) :
  includes (toLowerCase forecast) "rain" = false ->
  mapWeatherCondition forecast = specCondition forecast.
Proof.
  intros Hrain.
  unfold mapWeatherCondition, specCondition, specRules.
  cbn [firstMatch existsb]. rewrite !orb_false_r, Hrain.
  repeat match goal with
         | |- context [includes ?t ?k] => destruct (includes t k); cbn
         end; reflexivity.
Qed.

(* ================================================================== *)
(** ** The paths of [fetchWeather] *)

Lemma sys_eta (s : Sys) : {| this := this s; effects := effects s |} = s.
Proof. destruct s; reflexivity. Qed.

Lemma renderWeather_run (data : list ForecastDay) (s : Sys) :
  renderWeather data s =
  (Normal tt, {| this := rendered (cards data) (this s);
                 effects := effects s ++ renderLog (this s) |}).
Proof.
  destruct s as [[grid cache last] tr].
  unfold renderWeather, rendered, renderLog, bind, get; cbn.
  destruct grid; cbn; [reflexivity | now rewrite app_nil_r].
Qed.

Lemma renderWeatherFallback_run (s : Sys) :
  renderWeatherFallback s =
  (Normal tt, {| this := rendered fallbackHTML (this s);
                 effects := effects s |}).
Proof.
  destruct s as [[grid cache last] tr].
  unfold renderWeatherFallback, rendered, bind, get; cbn.
  destruct grid; reflexivity.
Qed.

Lemma networkAccesses_app (xs ys : list event) :
  networkAccesses (xs ++ ys) = (networkAccesses xs + networkAccesses ys)%nat.
Proof. unfold networkAccesses. now rewrite filter_app, length_app. Qed.

Lemma networkAccesses_renderLog (w : WeatherManager) :
  networkAccesses (renderLog w) = 0%nat.
Proof. unfold renderLog. now destruct (weatherGrid w). Qed.

Lemma networkAccesses_warns (warns : list event) :
  warns = [] \/ warns = parseWarning -> networkAccesses warns = 0%nat.
Proof. intros [-> | ->]; reflexivity. Qed.

Lemma rendered_shows (html : string) (w : WeatherManager) :
  shows html w (rendered html w).
Proof. destruct w as [[html0 |] cache last]; reflexivity. Qed.

Lemma rendered_weatherCache (html : string) (w : WeatherManager) :
  weatherCache (rendered html w) = weatherCache w.
Proof. destruct w as [[html0 |] cache last]; reflexivity. Qed.

Lemma rendered_lastFetchTime (html : string) (w : WeatherManager) :
  lastFetchTime (rendered html w) = lastFetchTime w.
Proof. destruct w as [[html0 |] cache last]; reflexivity. Qed.

(** A rendered forecast is never the card of [renderWeatherFallback]:
    the empty forecast is the empty string, and a weather card carries a
    [role] attribute where the fallback card carries a [style]. *)
Lemma cards_not_fallback (data : list ForecastDay) :
  cards data <> fallbackHTML.
Proof.
  destruct data as [| weather rest].
  - discriminate.
  - assert (Hhead :
      String.get 39 (cards (weather :: rest)) = Some "r"%char).
    { destruct rest; reflexivity. }
    intros Heq. rewrite Heq in Hhead.
    vm_compute in Hhead. discriminate.
Qed.

Lemma transportFails_failureOf (outcome : FetchOutcome) :
  transportFails outcome = true -> exists err, failureOf outcome = Some err.
Proof.
  destruct outcome as [| r]; cbn.
  - intros _. now exists NetworkError.
  - intros ->. now exists (HttpError (status r)).
Qed.

(** Either the try block raises, or the network answered a 2xx JSON
    body. *)
Lemma outcome_cases (outcome : FetchOutcome) :
  (exists err, failureOf outcome = Some err) \/
  (exists r data, outcome = Responded r /\ ok r = true /\ body r = Some data).
Proof.
  destruct outcome as [| r]; cbn.
  - left. now exists NetworkError.
  - destruct (ok r) eqn:Hok; cbn.
    + destruct (body r) as [data |] eqn:Hbody.
      * right. now exists r, data.
      * left. now exists SyntaxError.
    + left. now exists (HttpError (status r)).
Qed.

Lemma reads_ret {A} (a : A) : reads (ret a).
Proof. exists (Normal a). split; [discriminate | reflexivity]. Qed.

Lemma reads_lift {A} (c : completion A) :
  (forall e, c = Throw e -> e = TypeError) -> reads (lift c).
Proof. intros H. exists c. split; [exact H | reflexivity]. Qed.

Lemma reads_bind {A B} (m : js A) (k : A -> js B) :
  reads m -> (forall a, reads (k a)) -> reads (bind m k).
Proof.
  intros (c & Hc & Hm) Hk.
  destruct c as [a | e].
  - destruct (Hk a) as (c' & Hc' & Hka).
    exists c'. split; [exact Hc' |].
    intros s. unfold bind. now rewrite Hm, Hka.
  - exists (Throw e). split.
    + intros e' [= <-]. now apply Hc.
    + intros s. unfold bind. now rewrite Hm.
Qed.

Lemma getNamed_raises v k e : getNamed v k = Throw e -> e = TypeError.
Proof. destruct v as [[]|]; cbn; congruence. Qed.

Lemma getLength_raises v e : getLength v = Throw e -> e = TypeError.
Proof. destruct v as [[]|]; cbn; congruence. Qed.

Lemma getFirst_raises v e : getFirst v = Throw e -> e = TypeError.
Proof. destruct v as [[]|]; cbn; congruence. Qed.

Lemma slice04_raises v e : slice04 v = Throw e -> e = TypeError.
Proof. destruct v as [[]|]; cbn; congruence. Qed.

Lemma asString_raises v e : asString v = Throw e -> e = TypeError.
Proof. destruct v as [[]|]; cbn; congruence. Qed.

Lemma mapIndexed_raises {A B} (f : A -> Z -> completion B) xs :
  (forall x i e, f x i = Throw e -> e = TypeError) ->
  forall i e, mapIndexed f i xs = Throw e -> e = TypeError.
Proof.
  intros Hf. induction xs as [| x rest IH]; intros i e; cbn.
  - discriminate.
  - destruct (f x i) as [y | e1] eqn:Hx; cbn.
    + destruct (mapIndexed f (i + 1) rest) as [ys | e2] eqn:Hrest; cbn.
      * discriminate.
      * intros [= <-]. now apply (IH (i + 1)).
    + intros [= <-]. now apply (Hf x i).
Qed.

Section WeatherProperties.

Variable weekdayShort : Z -> string.
Variable monthDay : Z -> string.

Local Abbreviation parse := (parseNEAResponse weekdayShort monthDay).
Local Abbreviation run := (refresh weekdayShort monthDay).

Local Arguments renderWeather : simpl never.
Local Arguments renderWeatherFallback : simpl never.
Local Arguments parseNEAResponse : simpl never.

Lemma forecastDayOf_raises today x i e :
  forecastDayOf weekdayShort monthDay today x i = Throw e -> e = TypeError.
Proof.
  unfold forecastDayOf.
  destruct (getNamed (Some x) "forecast") as [raw | e1] eqn:Hraw; cbn.
  - destruct (asString raw) as [text | e2] eqn:Htext; cbn.
    + discriminate.
    + intros [= <-]. now apply asString_raises in Htext.
  - intros [= <-]. now apply getNamed_raises in Hraw.
Qed.

(** [parseNEAResponse] always returns a list: what it read, or the
    simulated entries; it touches nothing but the console. *)
Lemma parseNEAResponse_total (today : Z) (data : json) :
  exists weatherData warns,
    (warns = [] \/ warns = parseWarning) /\
    forall s, parse today data s =
              (Normal weatherData,
               {| this := this s; effects := effects s ++ warns |}).
Proof.
  unfold parseNEAResponse.
  match goal with
  | |- context [try_catch ?body _] =>
      assert (Hbody : reads body)
  end.
  { apply reads_bind; [apply reads_lift, getNamed_raises |]. intros items.
    apply reads_bind.
    - destruct (negb (truthy items)); [apply reads_ret |].
      apply reads_bind; [apply reads_lift, getLength_raises |].
      intros len. apply reads_ret.
    - intros [|]; [apply reads_ret |].
      apply reads_bind; [apply reads_lift, getFirst_raises |]. intros first.
      apply reads_bind; [apply reads_lift, getNamed_raises |]. intros fs.
      apply reads_bind; [apply reads_lift, slice04_raises |]. intros entries.
      apply reads_lift. apply mapIndexed_raises.
      intros x i e. apply forecastDayOf_raises. }
  destruct Hbody as ([weatherData | e] & He & Hrun).
  - exists weatherData, []. split; [now left |].
    intros s. unfold try_catch. rewrite Hrun, app_nil_r. now rewrite sys_eta.
  - exists getSimulatedWeather, parseWarning. split; [now right |].
    intros s. unfold try_catch. rewrite Hrun.
    rewrite (He e eq_refl). reflexivity.
Qed.

(** The same, telling the two ends of the parser apart: its try block
    returns and nothing is logged, or it raises, the warning is logged
    and the simulated entries are returned. *)
Lemma parseNEAResponse_cases (today : Z) (data : json) :
  exists weatherData warns,
    (warns = [] \/ (warns = parseWarning /\ weatherData = getSimulatedWeather))
    /\
    forall s, parse today data s =
              (Normal weatherData,
               {| this := this s; effects := effects s ++ warns |}).
Proof.
  unfold parseNEAResponse.
  match goal with
  | |- context [try_catch ?body _] =>
      assert (Hbody : reads body)
  end.
  { apply reads_bind; [apply reads_lift, getNamed_raises |]. intros items.
    apply reads_bind.
    - destruct (negb (truthy items)); [apply reads_ret |].
      apply reads_bind; [apply reads_lift, getLength_raises |].
      intros len. apply reads_ret.
    - intros [|]; [apply reads_ret |].
      apply reads_bind; [apply reads_lift, getFirst_raises |]. intros first.
      apply reads_bind; [apply reads_lift, getNamed_raises |]. intros fs.
      apply reads_bind; [apply reads_lift, slice04_raises |]. intros entries.
      apply reads_lift. apply mapIndexed_raises.
      intros x i e. apply forecastDayOf_raises. }
  destruct Hbody as ([weatherData | e] & He & Hrun).
  - exists weatherData, []. split; [now left |].
    intros s. unfold try_catch. rewrite Hrun, app_nil_r. now rewrite sys_eta.
  - exists getSimulatedWeather, parseWarning. split; [now right |].
    intros s. unfold try_catch. rewrite Hrun.
    rewrite (He e eq_refl). reflexivity.
Qed.

(** A body without items yields the simulated entries. *)
Lemma parseNEAResponse_no_items (today : Z) (data : json) :
  missingOrEmpty data = true ->
  exists warns,
    (warns = [] \/ warns = parseWarning) /\
    forall s, parse today data s =
              (Normal getSimulatedWeather,
               {| this := this s; effects := effects s ++ warns |}).
Proof.
  intros Hmissing.
  assert (Hquiet : forall s : Sys,
    (Normal getSimulatedWeather : completion (list ForecastDay), s) =
    (Normal getSimulatedWeather,
     {| this := this s; effects := effects s ++ [] |})).
  { intros s. now rewrite app_nil_r, sys_eta. }
  unfold missingOrEmpty, itemsOf in Hmissing.
  destruct data as [| b | q | str | xs | fields];
    try (exists []; split; [now left | exact Hquiet]).
  - exists parseWarning. split; [now right | reflexivity].
  - exists []. split; [now left |].
    intros s. unfold parseNEAResponse, try_catch, bind, lift, ret. cbn.
    destruct (assoc "items" fields) as [[| | | | [|] |] |];
      try discriminate; cbn; apply Hquiet.
Qed.

(** The cache is valid: it is rendered and nothing else happens. *)
Lemma refresh_cached now today outcome w cached :
  weatherCache w = Some cached ->
  now - lastFetchTime w < CONFIG.WEATHER_CACHE_TIME ->
  run now today outcome w =
  (Normal tt,
   {| this := rendered (cards cached) w;
      effects := ConsoleLog "Using cached weather data" :: renderLog w |}).
Proof.
  intros Hcache Hage.
  unfold refresh, fetchWeather, try_catch, bind, get, emit. cbn.
  rewrite Hcache.
  apply Z.ltb_lt in Hage. rewrite Hage.
  rewrite renderWeather_run. reflexivity.
Qed.

Lemma refetches_spec now w :
  refetches w now ->
  match weatherCache w with
  | Some _ => now - lastFetchTime w <? CONFIG.WEATHER_CACHE_TIME
  | None => false
  end = false.
Proof.
  intros [Hnone | Hstale].
  - now rewrite Hnone.
  - destruct (weatherCache w); [| reflexivity].
    apply Z.ltb_ge. exact Hstale.
Qed.

(** The network is asked and the try block raises [err]: the handler
    announces it and renders the cache, or the fallback card. *)
Lemma refresh_failed now today outcome w err :
  refetches w now ->
  failureOf outcome = Some err ->
  run now today outcome w =
  (Normal tt,
   {| this := rendered (match weatherCache w with
                        | Some cached => cards cached
                        | None => fallbackHTML
                        end) w;
      effects := [ConsoleLog "Fetching NEA weather data...";
                  Fetch CONFIG.WEATHER_FORECAST;
                  ConsoleError "Weather fetch error:" err;
                  Announce degraded_message]
                 ++ match weatherCache w with
                    | Some _ => renderLog w
                    | None => []
                    end |}).
Proof.
  intros Hre Hfail. apply refetches_spec in Hre.
  unfold refresh, fetchWeather, try_catch, bind, get. cbn.
  destruct (weatherCache w) as [cached |] eqn:Hcache.
  - rewrite Hre.
    unfold failureOf in Hfail.
    destruct outcome as [| r]; cbn.
    + injection Hfail as <-. rewrite Hcache, renderWeather_run. reflexivity.
    + destruct (negb (ok r)); cbn.
      * injection Hfail as <-. rewrite Hcache, renderWeather_run. reflexivity.
      * unfold response_json. destruct (body r); [discriminate |].
        injection Hfail as <-. cbn.
        rewrite Hcache, renderWeather_run. reflexivity.
  - unfold failureOf in Hfail.
    destruct outcome as [| r]; cbn.
    + injection Hfail as <-.
      rewrite Hcache, renderWeatherFallback_run. reflexivity.
    + destruct (negb (ok r)); cbn.
      * injection Hfail as <-.
        rewrite Hcache, renderWeatherFallback_run. reflexivity.
      * unfold response_json. destruct (body r); [discriminate |].
        injection Hfail as <-. cbn.
        rewrite Hcache, renderWeatherFallback_run. reflexivity.
Qed.

(** The network is asked and answers a 2xx JSON body: what the parser
    returns is cached with [now], rendered and announced. *)
Lemma refresh_fetched now today r data weatherData warns w :
  refetches w now ->
  ok r = true ->
  body r = Some data ->
  (forall s, parse today data s =
             (Normal weatherData,
              {| this := this s; effects := effects s ++ warns |})) ->
  run now today (Responded r) w =
  (Normal tt,
   {| this := rendered (cards weatherData)
                (set_lastFetchTime now (set_weatherCache weatherData w));
      effects := [ConsoleLog "Fetching NEA weather data...";
                  Fetch CONFIG.WEATHER_FORECAST]
                 ++ warns ++ renderLog w ++ [Announce updated_message] |}).
Proof.
  intros Hre Hok Hbody Hparse. apply refetches_spec in Hre.
  unfold refresh, fetchWeather, try_catch, bind, get. cbn.
  destruct (weatherCache w) as [cached |] eqn:Hcache;
    [rewrite Hre |];
    rewrite Hok; cbn; unfold response_json; rewrite Hbody; cbn;
    rewrite Hparse; cbn; rewrite renderWeather_run; cbn;
    unfold announceToScreenReader, emit; cbn;
    rewrite <- !app_assoc; reflexivity.
Qed.

(* ------------------------------------------------------------------ *)
(** *** Properties of one execution of [fetchWeather] *)


(** C6. When the transport fails and a cache entry exists, whatever its
    age, the refresh renders the cached entries and never the fallback
    card; whenever the transport was asked (the cache was no longer
    valid), the degraded-status notification is emitted. *)
Theorem failing_transport_renders_cache now today outcome w cached :
  weatherCache w = Some cached ->
  transportFails outcome = true ->
  let r := run now today outcome w in
  shows (cards cached) w (after r) /\
  cards cached <> fallbackHTML /\
  weatherCache (after r) = Some cached /\
  (600000 <= now - lastFetchTime w ->
   networkAccesses (trace r) = 1%nat /\
   In (Announce degraded_message) (trace r) /\
   ~ In (Announce updated_message) (trace r)).
Proof.
  intros Hcache Hfails r. subst r.
  destruct (transportFails_failureOf outcome Hfails) as [err Herr].
  destruct (Z.lt_ge_cases (now - lastFetchTime w) 600000) as [Hfresh | Hstale].
  - rewrite (refresh_cached now today outcome w cached Hcache Hfresh).
    unfold after, trace. cbn [snd this effects].
    rewrite rendered_weatherCache.
    repeat split.
    + apply rendered_shows.
    + apply cards_not_fallback.
    + exact Hcache.
    + lia.
    + lia.
    + lia.
  - assert (Hre : refetches w now) by (right; exact Hstale).
    rewrite (refresh_failed now today outcome w err Hre Herr).
    unfold after, trace. cbn [snd this effects].
    rewrite rendered_weatherCache, Hcache.
    split; [apply rendered_shows |].
    split; [apply cards_not_fallback |].
    split; [reflexivity |].
    intros _. split; [| split].
    + rewrite networkAccesses_app, networkAccesses_renderLog. reflexivity.
    + apply in_or_app. left. cbn. tauto.
    + intros Hin. apply in_app_or in Hin. destruct Hin as [Hin | Hin].
      * cbn in Hin. intuition discriminate.
      * unfold renderLog in Hin.
        destruct (weatherGrid w); cbn in Hin; intuition discriminate.
Qed.

(** C7, as amended. An execution either replaces the cache entry as a
    whole, data and timestamp together and from the same fetch, or
    leaves both fields as they were. When the fetch fails (network
    error, non-2xx status) or the body is not JSON, both keep their
    prior values. When the parser fails on the body, which it catches
    and logs itself, they do not: both are replaced together, by the
    four simulated entries and the time of the execution. *)
Theorem cache_update_atomic now today outcome w :
  let r := run now today outcome w in
  ((weatherCache (after r) = weatherCache w /\
    lastFetchTime (after r) = lastFetchTime w) \/
   (exists resp data weatherData,
      outcome = Responded resp /\ body resp = Some data /\
      (forall s, fst (parse today data s) = Normal weatherData) /\
      weatherCache (after r) = Some weatherData /\
      lastFetchTime (after r) = now)) /\
  (forall err,
     failureOf outcome = Some err ->
     weatherCache (after r) = weatherCache w /\
     lastFetchTime (after r) = lastFetchTime w) /\
  (In (ConsoleWarn "Error parsing NEA response:" TypeError) (trace r) ->
   weatherCache (after r) = Some getSimulatedWeather /\
   lastFetchTime (after r) = now).
Proof.
  intros r. subst r.
  assert (Hfailed : forall err,
    failureOf outcome = Some err ->
    weatherCache (after (run now today outcome w)) = weatherCache w /\
    lastFetchTime (after (run now today outcome w)) = lastFetchTime w).
  { intros err Herr.
    destruct (weatherCache w) as [cached |] eqn:Hcache.
    - destruct (Z.lt_ge_cases (now - lastFetchTime w) 600000)
        as [Hfresh | Hstale].
      + rewrite (refresh_cached now today outcome w cached Hcache Hfresh).
        unfold after. cbn [snd this].
        now rewrite rendered_weatherCache, rendered_lastFetchTime.
      + assert (Hre : refetches w now) by (right; exact Hstale).
        rewrite (refresh_failed now today outcome w err Hre Herr).
        unfold after. cbn [snd this].
        now rewrite rendered_weatherCache, rendered_lastFetchTime.
    - assert (Hre : refetches w now) by (left; exact Hcache).
      rewrite (refresh_failed now today outcome w err Hre Herr).
      unfold after. cbn [snd this].
      now rewrite rendered_weatherCache, rendered_lastFetchTime. }
  assert (Hquiet : forall w',
    ~ In (ConsoleWarn "Error parsing NEA response:" TypeError)
        (renderLog w')).
  { intros w' Hin. unfold renderLog in Hin.
    destruct (weatherGrid w'); cbn in Hin; intuition discriminate. }
  assert (Hage :
    (exists cached, weatherCache w = Some cached /\
                    now - lastFetchTime w < 600000)
    \/ refetches w now).
  { destruct (weatherCache w) as [cached |] eqn:Hcache.
    - destruct (Z.lt_ge_cases (now - lastFetchTime w) 600000)
        as [Hfresh | Hstale].
      + left. now exists cached.
      + right. right. exact Hstale.
    - right. left. exact Hcache. }
  split; [| split; [exact Hfailed |]].
  - destruct (outcome_cases outcome)
      as [[err Herr] | (r & data & -> & Hok & Hbody)].
    + left. exact (Hfailed err Herr).
    + destruct (parseNEAResponse_total today data)
        as (weatherData & warns & Hwarns & Hparse).
      destruct Hage as [(cached & Hcache & Hfresh) | Hre].
      * left.
        rewrite (refresh_cached now today (Responded r) w cached Hcache Hfresh).
        unfold after. cbn [snd this].
        now rewrite rendered_weatherCache, rendered_lastFetchTime.
      * right. exists r, data, weatherData.
        rewrite (refresh_fetched now today r data weatherData warns w
                   Hre Hok Hbody Hparse).
        unfold after. cbn [snd this].
        rewrite rendered_weatherCache, rendered_lastFetchTime.
        split; [reflexivity |]. split; [exact Hbody |].
        split; [intros s; now rewrite Hparse |].
        split; reflexivity.
  - intros Hwarned.
    destruct Hage as [(cached & Hcache & Hfresh) | Hre].
    { exfalso.
      rewrite (refresh_cached now today outcome w cached Hcache Hfresh)
        in Hwarned.
      unfold trace in Hwarned. cbn [snd effects] in Hwarned.
      destruct Hwarned as [Hhead | Hlog]; [discriminate |].
      exact (Hquiet w Hlog). }
    destruct (outcome_cases outcome)
      as [[err Herr] | (r & data & -> & Hok & Hbody)].
    { exfalso.
      rewrite (refresh_failed now today outcome w err Hre Herr) in Hwarned.
      unfold trace in Hwarned. cbn [snd effects] in Hwarned.
      apply in_app_or in Hwarned. destruct Hwarned as [Hhead | Hlog].
      - cbn in Hhead. intuition discriminate.
      - destruct (weatherCache w); [exact (Hquiet w Hlog) | destruct Hlog]. }
    destruct (parseNEAResponse_cases today data)
      as (weatherData & warns & Hwarns & Hparse).
    rewrite (refresh_fetched now today r data weatherData warns w
               Hre Hok Hbody Hparse) in Hwarned |- *.
    unfold after, trace in *. cbn [snd this effects] in *.
    rewrite rendered_weatherCache, rendered_lastFetchTime.
    destruct Hwarns as [-> | [-> ->]]; [| split; reflexivity].
    exfalso.
    apply in_app_or in Hwarned. destruct Hwarned as [Hhead | Hrest].
    { cbn in Hhead. intuition discriminate. }
    cbn [app] in Hrest.
    apply in_app_or in Hrest. destruct Hrest as [Hlog | Hlast].
    + exact (Hquiet w Hlog).
    + cbn in Hlast. intuition discriminate.
Qed.

(** The execution on a 2xx body without items, written out. *)
Lemma refresh_no_items now today r data w :
  refetches w now ->
  ok r = true ->
  body r = Some data ->
  missingOrEmpty data = true ->
  exists warns,
    (warns = [] \/ warns = parseWarning) /\
    run now today (Responded r) w =
    (Normal tt,
     {| this := rendered (cards getSimulatedWeather)
                  (set_lastFetchTime now
                     (set_weatherCache getSimulatedWeather w));
        effects := [ConsoleLog "Fetching NEA weather data...";
                    Fetch CONFIG.WEATHER_FORECAST]
                   ++ warns ++ renderLog w ++ [Announce updated_message] |}).
Proof.
  intros Hre Hok Hbody Hmissing.
  destruct (parseNEAResponse_no_items today data Hmissing)
    as (warns & Hwarns & Hparse).
  exists warns. split; [exact Hwarns |].
  now apply refresh_fetched with (data := data).
Qed.

(** C3, as amended. When the response succeeds but the body's items
    collection is missing or empty, the refresh stays on the success
    path with the simulated entries in place of a parsed forecast: it
    completes normally, renders the four simulated entries (also when a
    stale cache exists), emits the success notification and does not emit
    the degraded-status notification. *)
Theorem missing_items_success_path now today r data w :
  refetches w now ->
  ok r = true ->
  body r = Some data ->
  missingOrEmpty data = true ->
  let r1 := run now today (Responded r) w in
  fst r1 = Normal tt /\
  shows (cards getSimulatedWeather) w (after r1) /\
  In (Announce updated_message) (trace r1) /\
  ~ In (Announce degraded_message) (trace r1).
Proof.
  intros Hre Hok Hbody Hmissing r1. subst r1.
  destruct (refresh_no_items now today r data w Hre Hok Hbody Hmissing)
    as (warns & Hwarns & ->).
  unfold after, trace. cbn [fst snd this effects].
  split; [reflexivity |].
  split.
  { destruct w as [[html0 |] cache last]; reflexivity. }
  split.
  - apply in_or_app. right. apply in_or_app. right.
    apply in_or_app. right. now left.
  - intros Hin.
    apply in_app_or in Hin. destruct Hin as [Hin | Hin].
    { cbn in Hin. intuition discriminate. }
    apply in_app_or in Hin. destruct Hin as [Hin | Hin].
    { destruct Hwarns as [-> | ->]; cbn in Hin; intuition discriminate. }
    apply in_app_or in Hin. destruct Hin as [Hin | Hin].
    { unfold renderLog in Hin.
      destruct (weatherGrid w); cbn in Hin; intuition discriminate. }
    cbn in Hin. destruct Hin as [Hin | []].
    discriminate Hin.
Qed.

(** C10. When the response succeeds but the body's items collection is
    missing or empty, the refresh stores the four simulated entries in
    the cache with the current timestamp and emits the success
    notification; every refresh within the following 600000 ms renders
    the simulated entries from the cache with no network access. *)
Theorem missing_items_cached_as_simulated now today r data w :
  refetches w now ->
  ok r = true ->
  body r = Some data ->
  missingOrEmpty data = true ->
  let r1 := run now today (Responded r) w in
  weatherCache (after r1) = Some getSimulatedWeather /\
  lastFetchTime (after r1) = now /\
  In (Announce updated_message) (trace r1) /\
  forall now' today' outcome',
    now' - now < 600000 ->
    let r2 := run now' today' outcome' (after r1) in
    networkAccesses (trace r2) = 0%nat /\
    shows (cards getSimulatedWeather) (after r1) (after r2) /\
    weatherCache (after r2) = Some getSimulatedWeather /\
    lastFetchTime (after r2) = now.
Proof.
  intros Hre Hok Hbody Hmissing r1.
  assert (Hstored : weatherCache (after r1) = Some getSimulatedWeather /\
                    lastFetchTime (after r1) = now /\
                    In (Announce updated_message) (trace r1)).
  { subst r1.
    destruct (refresh_no_items now today r data w Hre Hok Hbody Hmissing)
      as (warns & Hwarns & ->).
    unfold after, trace. cbn [snd this effects].
    rewrite rendered_weatherCache, rendered_lastFetchTime.
    repeat split.
    apply in_or_app. right. apply in_or_app. right.
    apply in_or_app. right. now left. }
  destruct Hstored as (Hcache & Htime & Hannounced).
  repeat (split; [assumption |]).
  intros now' today' outcome' Hwithin r2.
  assert (Hage : now' - lastFetchTime (after r1) < CONFIG.WEATHER_CACHE_TIME).
  { rewrite Htime. exact Hwithin. }
  subst r2. set (w1 := after r1) in *.
  rewrite (refresh_cached now' today' outcome' w1 getSimulatedWeather
             Hcache Hage).
  cbn [after trace snd this effects].
  rewrite rendered_weatherCache, rendered_lastFetchTime.
  repeat split.
  - change (ConsoleLog "Using cached weather data" :: renderLog w1)
      with ([ConsoleLog "Using cached weather data"] ++ renderLog w1)%list.
    now rewrite networkAccesses_app, networkAccesses_renderLog.
  - apply rendered_shows.
  - exact Hcache.
  - exact Htime.
Qed.

End WeatherProperties.

(* ------------------------------------------------------------------ *)
(** *** Concrete executions *)


Lemma failing_transport_renders_cache_witness :
  weatherCache cachedManager = Some staleForecast /\
  transportFails (respond 503 None) = true /\
  weatherGrid
    (after (refresh sampleWeekday sampleMonthDay 700000 0 (respond 503 None)
              cachedManager)) = Some (cards staleForecast) /\
  In (Announce degraded_message)
    (trace (refresh sampleWeekday sampleMonthDay 700000 0 (respond 503 None)
              cachedManager)).
Proof.
  split; [reflexivity |]. split; [reflexivity |].
  destruct (failing_transport_renders_cache sampleWeekday sampleMonthDay
              700000 0 (respond 503 None) cachedManager staleForecast
              eq_refl eq_refl) as (Hshows & _ & _ & Hasked).
  split; [exact Hshows |].
  assert (Hstale : 600000 <= 700000 - lastFetchTime cachedManager)
    by (change (lastFetchTime cachedManager) with 1000; lia).
  exact (proj1 (proj2 (Hasked Hstale))).
Defined.

Lemma cache_update_atomic_witness :
  failureOf Rejected = Some NetworkError /\
  (weatherCache
     (after (refresh sampleWeekday sampleMonthDay 700000 0 Rejected
               cachedManager)) = Some staleForecast /\
   lastFetchTime
     (after (refresh sampleWeekday sampleMonthDay 700000 0 Rejected
               cachedManager)) = 1000) /\
  In (ConsoleWarn "Error parsing NEA response:" TypeError)
    (trace (refresh sampleWeekday sampleMonthDay 700000 0
              (respond 200 (Some nullForecasts)) cachedManager)) /\
  (weatherCache
     (after (refresh sampleWeekday sampleMonthDay 700000 0
               (respond 200 (Some nullForecasts)) cachedManager))
   = Some getSimulatedWeather /\
   lastFetchTime
     (after (refresh sampleWeekday sampleMonthDay 700000 0
               (respond 200 (Some nullForecasts)) cachedManager))
   = 700000).
Proof.
  split; [reflexivity |].
  split.
  { exact (proj1 (proj2 (cache_update_atomic sampleWeekday sampleMonthDay
                           700000 0 Rejected cachedManager))
             NetworkError eq_refl). }
  assert (Hwarned :
    In (ConsoleWarn "Error parsing NEA response:" TypeError)
      (trace (refresh sampleWeekday sampleMonthDay 700000 0
                (respond 200 (Some nullForecasts)) cachedManager))).
  { right. right. now left. }
  split; [exact Hwarned |].
  exact (proj2 (proj2 (cache_update_atomic sampleWeekday sampleMonthDay
                         700000 0 (respond 200 (Some nullForecasts))
                         cachedManager))
           Hwarned).
Defined.

Lemma missing_items_success_path_witness :
  refetches cachedManager 700000 /\
  ok {| status := 200; body := Some emptyItems |} = true /\
  missingOrEmpty emptyItems = true /\
  weatherGrid
    (after (refresh sampleWeekday sampleMonthDay 700000 0
              (respond 200 (Some emptyItems)) cachedManager))
  = Some (cards getSimulatedWeather) /\
  In (Announce updated_message)
    (trace (refresh sampleWeekday sampleMonthDay 700000 0
              (respond 200 (Some emptyItems)) cachedManager)).
Proof.
  assert (Hre : refetches cachedManager 700000).
  { right. change (lastFetchTime cachedManager) with 1000.
    unfold CONFIG.WEATHER_CACHE_TIME. lia. }
  split; [exact Hre |]. split; [reflexivity |]. split; [reflexivity |].
  destruct (missing_items_success_path sampleWeekday sampleMonthDay
              700000 0 {| status := 200; body := Some emptyItems |}
              emptyItems cachedManager Hre eq_refl eq_refl eq_refl)
    as (_ & Hshows & Hannounced & _).
  split; [exact Hshows | exact Hannounced].
Defined.

Lemma missing_items_cached_as_simulated_witness :
  refetches (constructor (Some "")) 5000 /\
  ok {| status := 200; body := Some (JObj []) |} = true /\
  missingOrEmpty (JObj []) = true /\
  weatherCache
    (after (refresh sampleWeekday sampleMonthDay 5000 0
              (respond 200 (Some (JObj []))) (constructor (Some ""))))
  = Some getSimulatedWeather /\
  networkAccesses
    (trace (refresh sampleWeekday sampleMonthDay 604999 0 Rejected
              (after (refresh sampleWeekday sampleMonthDay 5000 0
                        (respond 200 (Some (JObj [])))
                        (constructor (Some "")))))) = 0%nat.
Proof.
  assert (Hre : refetches (constructor (Some "")) 5000).
  { left. reflexivity. }
  split; [exact Hre |]. split; [reflexivity |]. split; [reflexivity |].
  destruct (missing_items_cached_as_simulated sampleWeekday sampleMonthDay
              5000 0 {| status := 200; body := Some (JObj []) |}
              (JObj []) (constructor (Some "")) Hre eq_refl eq_refl eq_refl)
    as (Hcache & _ & _ & Hlater).
  split; [exact Hcache |].
  assert (Hwithin : 604999 - 5000 < 600000) by lia.
  exact (proj1 (Hlater 604999 0 Rejected Hwithin)).
Defined.

(** C3, as stated, fails. A stale cache exists and the server answers
    200 with [items: []]: the refresh announces success, renders the
    simulated entries and overwrites the cache, where a body that is not
    JSON makes it announce the degraded status and render the cache. *)
Lemma empty_items_is_not_a_parse_failure :
  (trace (refresh sampleWeekday sampleMonthDay 700000 0
            (respond 200 (Some emptyItems)) cachedManager)
   = [ConsoleLog "Fetching NEA weather data...";
      Fetch CONFIG.WEATHER_FORECAST;
      ConsoleLog "Weather cards rendered successfully";
      Announce updated_message] /\
   after (refresh sampleWeekday sampleMonthDay 700000 0
            (respond 200 (Some emptyItems)) cachedManager)
   = {| weatherGrid := Some (cards getSimulatedWeather);
        weatherCache := Some getSimulatedWeather;
        lastFetchTime := 700000 |}) /\
  (trace (refresh sampleWeekday sampleMonthDay 700000 0
            (respond 200 None) cachedManager)
   = [ConsoleLog "Fetching NEA weather data...";
      Fetch CONFIG.WEATHER_FORECAST;
      ConsoleError "Weather fetch error:" SyntaxError;
      Announce degraded_message;
      ConsoleLog "Weather cards rendered successfully"] /\
   after (refresh sampleWeekday sampleMonthDay 700000 0
            (respond 200 None) cachedManager)
   = {| weatherGrid := Some (cards staleForecast);
        weatherCache := Some staleForecast;
        lastFetchTime := 1000 |}) /\
  existsb (fun e => match e with
                    | Announce msg => String.eqb msg degraded_message
                    | _ => false
                    end)
    (trace (refresh sampleWeekday sampleMonthDay 700000 0
              (respond 200 (Some emptyItems)) cachedManager)) = false.
Proof. repeat split; vm_compute; reflexivity. Qed.

(** C7, as stated, fails. A stale cache exists and the server answers
    200 with a body whose first item has [forecasts: null]: the parser
    fails and logs it, and the execution goes on to replace both fields
    of the cache, by the simulated entries and the time of the
    execution. *)
Lemma parser_failure_overwrites_cache :
  weatherCache cachedManager = Some staleForecast /\
  lastFetchTime cachedManager = 1000 /\
  trace (refresh sampleWeekday sampleMonthDay 700000 0
           (respond 200 (Some nullForecasts)) cachedManager)
  = [ConsoleLog "Fetching NEA weather data...";
     Fetch CONFIG.WEATHER_FORECAST;
     ConsoleWarn "Error parsing NEA response:" TypeError;
     ConsoleLog "Weather cards rendered successfully";
     Announce updated_message] /\
  after (refresh sampleWeekday sampleMonthDay 700000 0
           (respond 200 (Some nullForecasts)) cachedManager)
  = {| weatherGrid := Some (cards getSimulatedWeather);
       weatherCache := Some getSimulatedWeather;
       lastFetchTime := 700000 |} /\
  String.eqb (cards getSimulatedWeather) (cards staleForecast) = false.
Proof. repeat split; vm_compute; reflexivity. Qed.

(* ------------------------------------------------------------------ *)
(** *** Where the code departs from its specification *)

(** C1. On a forecast that contains both "thunder" and "rain",
    [mapWeatherCondition] answers Rainy, its "rain" test standing before
    its "thunder" test, where the specified rule order gives Thundery. *)
Theorem rain_tested_before_thunder :
  includes (toLowerCase "Heavy rain with thundery showers") "thunder" = true /\
  includes (toLowerCase "Heavy rain with thundery showers") "rain" = true /\
  mapWeatherCondition "Heavy rain with thundery showers" = "Rainy" /\
  specCondition "Heavy rain with thundery showers" = "Thundery".
Proof. repeat split; vm_compute; reflexivity. Qed.

(** C2. With a failing transport and no cache, the refresh renders the
    single card of [renderWeatherFallback], which is not the rendering of
    the four simulated entries and names none of their conditions. *)
Theorem failing_transport_without_cache_renders_notice :
  after (refresh sampleWeekday sampleMonthDay 1000 0 Rejected
           (constructor (Some "")))
  = {| weatherGrid := Some fallbackHTML;
       weatherCache := None;
       lastFetchTime := 0 |} /\
  after (refresh sampleWeekday sampleMonthDay 1000 0 (respond 503 None)
           (constructor (Some "")))
  = {| weatherGrid := Some fallbackHTML;
       weatherCache := None;
       lastFetchTime := 0 |} /\
  String.eqb fallbackHTML (cards getSimulatedWeather) = false /\
  includes fallbackHTML "Sunny" = false /\
  includes fallbackHTML
    "Unable to fetch live weather data. Please check the NEA API connection."
  = true.
Proof. repeat split; vm_compute; reflexivity. Qed.

(** C4. The two functions do not share one rule order: on a forecast
    with "storm" and "rain" the condition comes from the "rain" rule and
    the glyph from the "thunder"/"storm" rule, so Rainy is paired with
    the thunder glyph; on one with "showers" and "rain" the condition
    comes from the "rain" rule and the glyph from the "showers" rule. *)
Theorem condition_and_emoji_rules_disagree :
  mapWeatherCondition "Thunderstorms and heavy rain" = "Rainy" /\
  getWeatherEmoji "Thunderstorms and heavy rain" = Glyph.thundery /\
  specCondition "Thunderstorms and heavy rain" = "Thundery" /\
  specEmoji "Thunderstorms and heavy rain" = Glyph.thundery /\
  getWeatherEmoji "Rainy" = Glyph.rain /\
  String.eqb Glyph.thundery Glyph.rain = false /\
  mapWeatherCondition "Showers with rain at times" = "Rainy" /\
  mapWeatherCondition "Showers" = "Showers".
Proof. repeat split; vm_compute; reflexivity. Qed.

(** C8. The block of a record holds its day name, date, glyph and
    condition, and the literal text [{{ weather.forecast }}] where the
    record's raw forecast text is expected. *)
Theorem card_omits_forecast_text :
  let weather :=
    {| day := "Tomorrow"; date := "Dec 3"; condition := "Partly Cloudy";
       emoji := Glyph.partly; forecast := "Partly cloudy" |} in
  nth_error getSimulatedWeather 1 = Some weather /\
  includes (card weather) (day weather) = true /\
  includes (card weather) (date weather) = true /\
  includes (card weather) (emoji weather) = true /\
  includes (card weather) (condition weather) = true /\
  includes (card weather) (forecast weather) = false /\
  includes (card weather) "{{ weather.forecast }}" = true.
Proof. repeat split; vm_compute; reflexivity. Qed.

(* ------------------------------------------------------------------ *)
(** *** Debounced requests *)

Section DebounceProperties.

Import EventLoop.

Variable A : Type.

Lemma drop_single (tm : timer A) : drop (timerId tm) [tm] = [].
Proof. unfold drop. cbn. now rewrite Nat.eqb_refl. Qed.

Lemma drop_all (n : nat) (timers : list (timer A)) :
  (forall tm, In tm timers -> timerId tm = n) -> drop n timers = [].
Proof.
  induction timers as [| tm rest IH]; intros Hall.
  - reflexivity.
  - unfold drop. cbn [filter].
    rewrite (Hall tm (or_introl eq_refl)), Nat.eqb_refl. cbn [negb].
    apply IH. intros tm' Hin. apply Hall. now right.
Qed.

(** The closure's [clearTimeout] leaves no timer of its own. *)
Lemma clearTimeout_owned (d : debounced) (l : loop A) :
  ownsTimers d l -> pending (clearTimeout (timeoutId d) l) = [].
Proof.
  intros Hown. unfold ownsTimers in Hown.
  destruct (timeoutId d) as [n |] eqn:Hid; cbn.
  - apply drop_all. intros tm Hin.
    specialize (Hown tm Hin). now injection Hown.
  - destruct (pending l) as [| tm rest]; [reflexivity |].
    discriminate (Hown tm (or_introl eq_refl)).
Qed.

(** After a call exactly one timer is pending, the call's own. *)
Lemma invoke_pending (d : debounced) (l : loop A) (a : A) (t : Z) :
  ownsTimers d l ->
  pending (snd (invoke a t (d, l))) = [mkTimer (nextId l) (t + delay d) a] /\
  applied (snd (invoke a t (d, l))) = applied l /\
  clock (snd (invoke a t (d, l))) = t /\
  nextId (snd (invoke a t (d, l))) = S (nextId l) /\
  fst (invoke a t (d, l)) = mkDebounced (delay d) (Some (nextId l)).
Proof.
  intros Hown.
  pose proof (clearTimeout_owned d l Hown) as Hcleared.
  unfold invoke, setTimeout, clearTimeout in *.
  destruct (timeoutId d) as [n |];
    cbn [fst snd pending applied clock nextId] in *;
    rewrite Hcleared; repeat split.
Qed.

(** Calls and firings keep the table the closure's own. *)
Lemma ownsTimers_invoke (d : debounced) (l : loop A) (a : A) (t : Z) :
  ownsTimers d l ->
  ownsTimers (fst (invoke a t (d, l))) (snd (invoke a t (d, l))).
Proof.
  intros Hown.
  destruct (invoke_pending d l a t Hown) as (Hp & _ & _ & _ & Hd).
  unfold ownsTimers. rewrite Hp, Hd.
  intros tm [<- | []]. reflexivity.
Qed.

Lemma ownsTimers_fire (d : debounced) (l : loop A) (tm : timer A) (t : Z) :
  ownsTimers d l -> ownsTimers d (fire tm t l).
Proof.
  intros Hown tm' Hin. apply Hown.
  cbn [pending fire] in Hin. unfold drop in Hin.
  apply filter_In in Hin. tauto.
Qed.

(** With no timer pending the host has nothing to fire. *)
Lemma fires_quiet (l l' : loop A) :
  fires l l' -> pending l = [] -> l' = l.
Proof.
  intros Hfires Hnone. destruct Hfires as [l | l tm t l' Hin _ _ _].
  - reflexivity.
  - rewrite Hnone in Hin. destruct Hin.
Qed.

(** With one timer pending the host either waits or fires it, once. *)
Lemma fires_single (l l' : loop A) (tm : timer A) :
  fires l l' -> pending l = [tm] ->
  l' = l \/ exists t, due tm <= t /\ clock l <= t /\ l' = fire tm t l.
Proof.
  intros Hfires Hone.
  destruct Hfires as [l | l tm' t l' Hin Hdue Hclock Hrest].
  - now left.
  - right. rewrite Hone in Hin. destruct Hin as [<- | []].
    exists t. repeat split; try assumption.
    apply (fires_quiet _ _ Hrest).
    cbn [pending fire]. rewrite Hone. apply drop_single.
Qed.

(** C9. Two requests made through the debounced entry point less than
    300 ms apart, whatever was requested before them: however the host
    schedules, once no timer is left [func] has been applied exactly
    once more, to the arguments of the second request, no earlier than
    300 ms after it; and the host can always get there. *)
Theorem debounce_coalesces_pair (d : debounced) (l l1 : loop A)
    (a1 a2 : A) (t1 t2 : Z) :
  delay d = CONFIG.DEBOUNCE_DELAY ->
  ownsTimers d l ->
  fires (snd (invoke a1 t1 (d, l))) l1 ->
  clock l1 <= t2 ->
  t2 - t1 < 300 ->
  let st2 := invoke a2 t2 (fst (invoke a1 t1 (d, l)), l1) in
  (exists l2, fires (snd st2) l2 /\ pending l2 = []) /\
  (forall l2,
     fires (snd st2) l2 -> pending l2 = [] ->
     applied l2 = (applied l ++ [a2])%list /\ t2 + 300 <= clock l2).
Proof.
  intros Hdelay Hown Hfires1 Hclock Hwindow.
  unfold CONFIG.DEBOUNCE_DELAY in Hdelay.
  destruct (invoke_pending d l a1 t1 Hown)
    as (Hfirst & Happlied1 & Hclock1 & _ & Hd1).
  rewrite Hdelay in Hfirst.
  (* the first timer is not due before the second request *)
  assert (Hl1 : l1 = snd (invoke a1 t1 (d, l))).
  { destruct (fires_single _ _ _ Hfires1 Hfirst)
      as [-> | (t & Hdue & _ & ->)]; [reflexivity |].
    cbn [due] in Hdue. cbn [clock fire] in Hclock. exfalso. lia. }
  subst l1.
  pose proof (ownsTimers_invoke d l a1 t1 Hown) as Hown1.
  assert (Hdelay1 : delay (fst (invoke a1 t1 (d, l))) = 300).
  { rewrite Hd1. exact Hdelay. }
  destruct (invoke_pending _ _ a2 t2 Hown1)
    as (Hsecond & Happlied2 & Hclock2 & _ & _).
  rewrite Hdelay1 in Hsecond. rewrite Happlied1 in Happlied2.
  intros st2. fold st2 in Hsecond, Happlied2, Hclock2.
  set (tm2 := mkTimer (nextId (snd (invoke a1 t1 (d, l)))) (t2 + 300) a2)
    in *.
  split.
  - exists (fire tm2 (t2 + 300) (snd st2)). split.
    + apply fires_next with (tm := tm2) (t := t2 + 300).
      * rewrite Hsecond. now left.
      * subst tm2. cbn [due]. lia.
      * rewrite Hclock2. lia.
      * apply fires_none.
    + cbn [pending fire]. rewrite Hsecond. apply drop_single.
  - intros l2 Hfires2 Hdone.
    destruct (fires_single _ _ tm2 Hfires2 Hsecond)
      as [-> | (t & Hdue & _ & ->)].
    + rewrite Hsecond in Hdone. discriminate.
    + subst tm2. cbn [due] in Hdue. cbn [applied clock fire args].
      rewrite Happlied2. split; [reflexivity | lia].
Qed.

End DebounceProperties.

Lemma debounce_coalesces_pair_witness :
  EventLoop.delay loadWeatherData = CONFIG.DEBOUNCE_DELAY /\
  ownsTimers loadWeatherData idleLoop /\
  50 - 0 < 300 /\
  EventLoop.fires
    (snd (EventLoop.invoke 2%nat 50
            (EventLoop.invoke 1%nat 0 (loadWeatherData, idleLoop))))
    (EventLoop.fire (EventLoop.mkTimer 1%nat 350 2%nat) 350
       (snd (EventLoop.invoke 2%nat 50
               (EventLoop.invoke 1%nat 0 (loadWeatherData, idleLoop))))) /\
  EventLoop.applied
    (EventLoop.fire (EventLoop.mkTimer 1%nat 350 2%nat) 350
       (snd (EventLoop.invoke 2%nat 50
               (EventLoop.invoke 1%nat 0 (loadWeatherData, idleLoop)))))
  = [2%nat].
Proof.
  assert (Hfires :
    EventLoop.fires
      (snd (EventLoop.invoke 2%nat 50
              (EventLoop.invoke 1%nat 0 (loadWeatherData, idleLoop))))
      (EventLoop.fire (EventLoop.mkTimer 1%nat 350 2%nat) 350
         (snd (EventLoop.invoke 2%nat 50
                 (EventLoop.invoke 1%nat 0 (loadWeatherData, idleLoop)))))).
  { apply EventLoop.fires_next
      with (tm := EventLoop.mkTimer 1%nat 350 2%nat) (t := 350).
    - cbn. now left.
    - cbn. lia.
    - cbn. lia.
    - apply EventLoop.fires_none. }
  assert (Hown : ownsTimers loadWeatherData idleLoop).
  { intros tm []. }
  split; [reflexivity |]. split; [exact Hown |]. split; [lia |].
  split; [exact Hfires |].
  assert (Hclock :
    EventLoop.clock
      (snd (EventLoop.invoke 1%nat 0 (loadWeatherData, idleLoop))) <= 50)
    by (cbn; lia).
  assert (Hwindow : 50 - 0 < 300) by lia.
  exact (proj1 (proj2 (debounce_coalesces_pair nat loadWeatherData
                         idleLoop _ 1%nat 2%nat 0 50
                         eq_refl Hown (EventLoop.fires_none _)
                         Hclock Hwindow)
                  _ Hfires eq_refl)).
Defined.

(* ================================================================== *)
(** ** Further properties of the weather module *)

Lemma framed_ret {A} (a : A) : framed (ret a).
Proof. intros w tr. unfold ret. cbn. now rewrite app_nil_r. Qed.

Lemma framed_throw {A} (e : JsError) : framed (@throw A e).
Proof. intros w tr. unfold throw. cbn. now rewrite app_nil_r. Qed.

Lemma framed_lift {A} (c : completion A) : framed (lift c).
Proof. intros w tr. unfold lift. cbn. now rewrite app_nil_r. Qed.

Lemma framed_emit (e : event) : framed (emit e).
Proof. intros w tr. reflexivity. Qed.

Lemma framed_get {A} (field : WeatherManager -> A) : framed (get field).
Proof. intros w tr. unfold get. cbn. now rewrite app_nil_r. Qed.

Lemma framed_modify (f : WeatherManager -> WeatherManager) :
  framed (modify f).
Proof. intros w tr. unfold modify. cbn. now rewrite app_nil_r. Qed.

Lemma framed_bind {A B} (m : js A) (k : A -> js B) :
  framed m -> (forall a, framed (k a)) -> framed (bind m k).
Proof.
  intros Hm Hk w tr. unfold bind.
  rewrite (Hm w tr).
  destruct (m {| this := w; effects := [] |}) as [[a | e] [w1 tr1]]; cbn.
  - rewrite (Hk a w1 (tr ++ tr1)%list), (Hk a w1 tr1).
    cbn. now rewrite app_assoc.
  - reflexivity.
Qed.

Lemma framed_try_catch {A} (m : js A) (handler : JsError -> js A) :
  framed m -> (forall e, framed (handler e)) -> framed (try_catch m handler).
Proof.
  intros Hm Hh w tr. unfold try_catch.
  rewrite (Hm w tr).
  destruct (m {| this := w; effects := [] |}) as [[a | e] [w1 tr1]]; cbn.
  - reflexivity.
  - rewrite (Hh e w1 (tr ++ tr1)%list), (Hh e w1 tr1).
    cbn. now rewrite app_assoc.
Qed.

Lemma framed_renderWeather (data : list ForecastDay) :
  framed (renderWeather data).
Proof.
  intros w tr. rewrite !renderWeather_run. cbn. reflexivity.
Qed.

Lemma framed_renderWeatherFallback : framed renderWeatherFallback.
Proof.
  intros w tr. rewrite !renderWeatherFallback_run. cbn.
  now rewrite app_nil_r.
Qed.

Create HintDb framed.
#[export] Hint Resolve framed_ret framed_throw framed_lift framed_emit
  framed_get framed_modify framed_renderWeather
  framed_renderWeatherFallback : framed.

Section WeatherCoverage.

Variable weekdayShort : Z -> string.
Variable monthDay : Z -> string.

Local Abbreviation parse := (parseNEAResponse weekdayShort monthDay).
Local Abbreviation run := (refresh weekdayShort monthDay).
Local Abbreviation dayOf := (forecastDayOf weekdayShort monthDay).

Local Arguments renderWeather : simpl never.
Local Arguments renderWeatherFallback : simpl never.
Local Arguments parseNEAResponse : simpl never.

Lemma framed_parseNEAResponse today data : framed (parse today data).
Proof.
  intros w tr.
  destruct (parseNEAResponse_total weekdayShort monthDay today data)
    as (weatherData & warns & _ & Hparse).
  rewrite !Hparse. reflexivity.
Qed.

Lemma framed_fetchWeather now today outcome :
  framed (fetchWeather weekdayShort monthDay now today outcome).
Proof.
  unfold fetchWeather, fetch, response_json, announceToScreenReader.
  apply framed_try_catch.
  - apply framed_bind; [auto with framed |]. intros cache.
    apply framed_bind; [auto with framed |]. intros lastFetch.
    assert (Hrefetch : forall outcome', framed
      (emit (ConsoleLog "Fetching NEA weather data...") ;;
       response <- (emit (Fetch CONFIG.WEATHER_FORECAST) ;;
                    match outcome' with
                    | Rejected => throw NetworkError
                    | Responded r => ret r
                    end) ;;
       (if negb (ok response) then throw (HttpError (status response))
        else ret tt) ;;
       data <- match body response with
               | Some data => ret data
               | None => throw SyntaxError
               end ;;
       weatherData <- parse today data ;;
       modify (set_weatherCache weatherData) ;;
       modify (set_lastFetchTime now) ;;
       renderWeather weatherData ;;
       emit (Announce "Weather forecast updated"))).
    { intros outcome'.
      apply framed_bind; [auto with framed |]. intros _.
      apply framed_bind.
      { apply framed_bind; [auto with framed |]. intros _.
        destruct outcome'; auto with framed. }
      intros response.
      apply framed_bind.
      { destruct (negb (ok response)); auto with framed. }
      intros _.
      apply framed_bind.
      { destruct (body response); auto with framed. }
      intros data.
      apply framed_bind; [apply framed_parseNEAResponse |].
      intros weatherData.
      repeat (apply framed_bind; [auto with framed | intros _]).
      auto with framed. }
    destruct cache as [cached |]; [| apply Hrefetch].
    destruct (now - lastFetch <? CONFIG.WEATHER_CACHE_TIME);
      [| apply Hrefetch].
    apply framed_bind; auto with framed.
  - intros err.
    apply framed_bind; [auto with framed |]. intros _.
    apply framed_bind; [auto with framed |]. intros _.
    apply framed_bind; [auto with framed |]. intros cache.
    destruct cache; auto with framed.
Qed.

(* ------------------------------------------------------------------ *)
(** *** What the parser reads *)

Lemma forecastDayOf_text today entry index text :
  forecastText entry = Some text ->
  dayOf today entry index =
  Normal {| day := formatDay weekdayShort today (today + index);
            date := monthDay (today + index);
            condition := mapWeatherCondition text;
            forecast := text;
            emoji := getWeatherEmoji text |}.
Proof.
  unfold forecastText, forecastDayOf. destruct entry; try discriminate. cbn.
  destruct (assoc "forecast" fields) as [[] |]; try discriminate.
  now intros [= ->].
Qed.

Lemma forecastDayOf_no_text today entry index :
  forecastText entry = None -> dayOf today entry index = Throw TypeError.
Proof.
  unfold forecastText, forecastDayOf. destruct entry; try reflexivity. cbn.
  destruct (assoc "forecast" fields) as [[] |]; try discriminate;
    reflexivity.
Qed.

(** On a body of the documented shape the parser is the [map] over the
    first four entries, guarded by the handler. *)
Lemma parseNEAResponse_forecastsOf today data entries :
  forecastsOf data = Some entries ->
  forall s,
    parse today data s =
    try_catch (lift (mapIndexed (dayOf today) 0 (firstn 4 entries)))
      (fun err =>
         emit (ConsoleWarn "Error parsing NEA response:" err) ;;
         ret getSimulatedWeather) s.
Proof.
  unfold forecastsOf. destruct data as [| | | | | fields]; try discriminate.
  destruct (assoc "items" fields)
    as [[| | | | [| [| | | | | item] others] |] |] eqn:Hitems;
    try discriminate.
  destruct (assoc "forecasts" item) as [[| | | | found |] |] eqn:Hforecasts;
    try discriminate.
  intros [= ->] s.
  unfold parseNEAResponse, try_catch, bind, lift, ret. cbn.
  rewrite Hitems. cbn. rewrite Hforecasts. cbn.
  reflexivity.
Qed.

Lemma mapIndexed_texts today entries texts :
  map forecastText entries = map Some texts ->
  forall index,
  exists ws,
    mapIndexed (dayOf today) index entries = Normal ws /\
    map forecast ws = texts /\
    map condition ws = map mapWeatherCondition texts /\
    map emoji ws = map getWeatherEmoji texts /\
    map day ws = map (formatDay weekdayShort today)
                   (datesFrom (today + index) (List.length texts)) /\
    map date ws = map monthDay (datesFrom (today + index) (List.length texts)).
Proof.
  revert texts.
  induction entries as [| entry rest IH]; intros [| text texts] Hmap index;
    try discriminate.
  - exists []. repeat split.
  - cbn in Hmap. injection Hmap as Hentry Hrest.
    destruct (IH texts Hrest (index + 1))
      as (ws & Hws & Hf & Hc & He & Hd & Hdate).
    eexists. cbn [mapIndexed].
    rewrite (forecastDayOf_text today entry index text Hentry).
    cbn [cbind]. rewrite Hws. cbn [cbind].
    split; [reflexivity |].
    cbn [map forecast condition emoji day date List.length datesFrom].
    rewrite Hf, Hc, He, Hd, Hdate.
    replace (today + index + 1) with (today + (index + 1)) by lia.
    repeat split.
Qed.

Lemma mapIndexed_no_text today entries entry :
  In entry entries -> forecastText entry = None ->
  forall index, mapIndexed (dayOf today) index entries = Throw TypeError.
Proof.
  induction entries as [| first rest IH]; intros Hin Hnone index.
  - destruct Hin.
  - cbn [mapIndexed].
    destruct (dayOf today first index) as [w | e] eqn:Hfirst; cbn [cbind].
    + destruct Hin as [-> | Hin].
      * rewrite (forecastDayOf_no_text today entry index Hnone) in Hfirst.
        discriminate.
      * now rewrite (IH Hin Hnone (index + 1)).
    + now rewrite (forecastDayOf_raises weekdayShort monthDay
                     today first index e Hfirst).
Qed.

Lemma formatDay_today today :
  formatDay weekdayShort today today = "Today".
Proof. unfold formatDay. now rewrite Z.eqb_refl. Qed.

Lemma formatDay_tomorrow today :
  formatDay weekdayShort today (today + 1) = "Tomorrow".
Proof.
  unfold formatDay. rewrite Z.eqb_refl.
  destruct (Z.eqb_spec (today + 1) today); [lia | reflexivity].
Qed.

Lemma formatDay_later today date :
  today + 1 < date -> formatDay weekdayShort today date = weekdayShort date.
Proof.
  intros Hlater. unfold formatDay.
  destruct (Z.eqb_spec date today); [lia |].
  destruct (Z.eqb_spec date (today + 1)); [lia | reflexivity].
Qed.

(** X1. On a body of the documented shape whose first four entries (or
    all of them, if fewer) carry a string [forecast], the parser returns
    one record per such entry and no more than four, in order: the
    forecast text verbatim, its condition and glyph by the keyword
    chains, the days labelled Today, Tomorrow and then by weekday, the
    dates those of the following days; nothing is logged. *)
Theorem parse_documented_shape today data entries texts :
  forecastsOf data = Some entries ->
  map forecastText (firstn 4 entries) = map Some texts ->
  exists ws,
    (forall s, parse today data s = (Normal ws, s)) /\
    List.length ws = Nat.min 4 (List.length entries) /\
    map forecast ws = texts /\
    map condition ws = map mapWeatherCondition texts /\
    map emoji ws = map getWeatherEmoji texts /\
    map day ws =
      firstn (List.length texts)
        ["Today"; "Tomorrow"; weekdayShort (today + 2);
         weekdayShort (today + 3)] /\
    map date ws =
      firstn (List.length texts)
        [monthDay today; monthDay (today + 1); monthDay (today + 2);
         monthDay (today + 3)].
Proof.
  intros Hshape Htexts.
  destruct (mapIndexed_texts today (firstn 4 entries) texts Htexts 0)
    as (ws & Hws & Hf & Hc & He & Hd & Hdate).
  assert (Hlen : List.length texts = Nat.min 4 (List.length entries)).
  { rewrite <- (length_map Some texts), <- Htexts, length_map.
    apply length_firstn. }
  exists ws. split; [| split; [| split; [| split; [| split; [| split]]]]].
  - intros s.
    rewrite (parseNEAResponse_forecastsOf today data entries Hshape).
    unfold try_catch, lift. now rewrite Hws.
  - rewrite <- Hlen, <- Hf. now rewrite length_map.
  - exact Hf.
  - exact Hc.
  - exact He.
  - rewrite Hd.
    assert (Hfour : (List.length texts <= 4)%nat) by lia.
    destruct texts as [| t0 [| t1 [| t2 [| t3 [| t4 more]]]]];
      cbn [List.length datesFrom map firstn];
      try (cbn [List.length] in Hfour; lia);
      rewrite ?Z.add_0_r, ?formatDay_today, ?formatDay_tomorrow;
      rewrite ?(formatDay_later today (today + 1 + 1)) by lia;
      rewrite ?(formatDay_later today (today + 1 + 1 + 1)) by lia;
      replace (today + 1 + 1 + 1) with (today + 3) by lia;
      replace (today + 1 + 1) with (today + 2) by lia;
      reflexivity.
  - rewrite Hdate.
    assert (Hfour : (List.length texts <= 4)%nat) by lia.
    destruct texts as [| t0 [| t1 [| t2 [| t3 [| t4 more]]]]];
      cbn [List.length datesFrom map firstn];
      try (cbn [List.length] in Hfour; lia);
      rewrite ?Z.add_0_r;
      replace (today + 1 + 1 + 1) with (today + 3) by lia;
      replace (today + 1 + 1) with (today + 2) by lia;
      reflexivity.
Qed.

(** X2. No entry after the fourth is read: two bodies of the documented
    shape whose forecast lists agree on their first four entries are
    parsed alike. *)
Theorem parse_reads_four_entries today data data' entries entries' :
  forecastsOf data = Some entries ->
  forecastsOf data' = Some entries' ->
  firstn 4 entries = firstn 4 entries' ->
  forall s, parse today data s = parse today data' s.
Proof.
  intros Hshape Hshape' Hsame s.
  rewrite (parseNEAResponse_forecastsOf today data entries Hshape).
  rewrite (parseNEAResponse_forecastsOf today data' entries' Hshape').
  now rewrite Hsame.
Qed.

(** X3. One entry among the first four that carries no string
    [forecast] discards the whole list: the parser logs a warning and
    returns the four simulated entries, whatever the other entries
    hold. *)
Theorem parse_all_or_nothing today data entries entry :
  forecastsOf data = Some entries ->
  In entry (firstn 4 entries) ->
  forecastText entry = None ->
  forall s,
    parse today data s =
    (Normal getSimulatedWeather,
     {| this := this s; effects := effects s ++ parseWarning |}).
Proof.
  intros Hshape Hin Hnone s.
  rewrite (parseNEAResponse_forecastsOf today data entries Hshape).
  unfold try_catch, lift.
  now rewrite (mapIndexed_no_text today (firstn 4 entries) entry Hin Hnone 0).
Qed.

(* ------------------------------------------------------------------ *)
(** *** What every execution does *)

Lemma announcements_app (xs ys : list event) :
  announcements (xs ++ ys) = (announcements xs ++ announcements ys)%list.
Proof. unfold announcements. apply filter_app. Qed.

Lemma announcements_renderLog (w : WeatherManager) :
  announcements (renderLog w) = [].
Proof. unfold renderLog. now destruct (weatherGrid w). Qed.

Lemma announcements_warns (warns : list event) :
  warns = [] \/ warns = parseWarning -> announcements warns = [].
Proof. intros [-> | ->]; reflexivity. Qed.

(** The three ways an execution goes. *)
Lemma refresh_paths now today outcome w :
  (exists cached,
     weatherCache w = Some cached /\
     now - lastFetchTime w < CONFIG.WEATHER_CACHE_TIME /\
     run now today outcome w =
     (Normal tt,
      {| this := rendered (cards cached) w;
         effects := ConsoleLog "Using cached weather data" :: renderLog w |}))
  \/
  (exists err,
     refetches w now /\ failureOf outcome = Some err /\
     run now today outcome w =
     (Normal tt,
      {| this := rendered (match weatherCache w with
                           | Some cached => cards cached
                           | None => fallbackHTML
                           end) w;
         effects := [ConsoleLog "Fetching NEA weather data...";
                     Fetch CONFIG.WEATHER_FORECAST;
                     ConsoleError "Weather fetch error:" err;
                     Announce degraded_message]
                    ++ match weatherCache w with
                       | Some _ => renderLog w
                       | None => []
                       end |}))
  \/
  (exists weatherData warns,
     refetches w now /\ (warns = [] \/ warns = parseWarning) /\
     run now today outcome w =
     (Normal tt,
      {| this := rendered (cards weatherData)
                   (set_lastFetchTime now (set_weatherCache weatherData w));
         effects := [ConsoleLog "Fetching NEA weather data...";
                     Fetch CONFIG.WEATHER_FORECAST]
                    ++ warns ++ renderLog w
                    ++ [Announce updated_message] |})).
Proof.
  assert (Hage : (exists cached,
                    weatherCache w = Some cached /\
                    now - lastFetchTime w < CONFIG.WEATHER_CACHE_TIME)
                 \/ refetches w now).
  { destruct (weatherCache w) as [cached |] eqn:Hcache.
    - destruct (Z.lt_ge_cases (now - lastFetchTime w)
                  CONFIG.WEATHER_CACHE_TIME) as [Hfresh | Hstale].
      + left. now exists cached.
      + right. right. exact Hstale.
    - right. left. exact Hcache. }
  destruct Hage as [(cached & Hcache & Hfresh) | Hre].
  - left. exists cached. repeat split; try assumption.
    now apply refresh_cached.
  - right.
    destruct (outcome_cases outcome)
      as [[err Herr] | (r & data & -> & Hok & Hbody)].
    + left. exists err. repeat split; try assumption.
      now apply refresh_failed.
    + right.
      destruct (parseNEAResponse_total weekdayShort monthDay today data)
        as (weatherData & warns & Hwarns & Hparse).
      exists weatherData, warns. repeat split; try assumption.
      now apply refresh_fetched with (data := data).
Qed.

Lemma fetchWeatherOnPage_body now today outcome s :
  fetchWeatherOnPage weekdayShort monthDay true now today outcome s
  = fetchWeather weekdayShort monthDay now today outcome s.
Proof. reflexivity. Qed.

(** X4. On a page with a body [fetchWeather] never raises: whatever the
    cache holds and whatever the network answers (rejection, any status,
    a body that is not JSON, JSON of any shape), the execution completes
    normally. On a page without a body it completes normally when it is
    served from the cache, and raises a [TypeError], from
    [announceToScreenReader], whenever it asks the network. *)
Theorem refresh_never_raises now today outcome w :
  fst (fetchWeatherOnPage weekdayShort monthDay true now today outcome
         {| this := w; effects := [] |}) = Normal tt /\
  (forall cached,
     weatherCache w = Some cached ->
     now - lastFetchTime w < 600000 ->
     fst (fetchWeatherOnPage weekdayShort monthDay false now today outcome
            {| this := w; effects := [] |}) = Normal tt) /\
  (refetches w now ->
   fst (fetchWeatherOnPage weekdayShort monthDay false now today outcome
          {| this := w; effects := [] |}) = Throw TypeError).
Proof.
  split; [| split].
  - rewrite fetchWeatherOnPage_body.
    change (fetchWeather weekdayShort monthDay now today outcome
              {| this := w; effects := [] |})
      with (run now today outcome w).
    destruct (refresh_paths now today outcome w)
      as [(cached & _ & _ & ->) | [(err & _ & _ & ->)
                                  | (weatherData & warns & _ & _ & ->)]];
      reflexivity.
  - intros cached Hcache Hfresh.
    unfold fetchWeatherOnPage, try_catch, bind, get, emit. cbn.
    rewrite Hcache. apply Z.ltb_lt in Hfresh.
    change 600000 with CONFIG.WEATHER_CACHE_TIME in Hfresh.
    rewrite Hfresh. now rewrite renderWeather_run.
  - intros Hre. apply refetches_spec in Hre.
    assert (Hgo :
      forall s,
        fst (try_catch
               (emit (ConsoleLog "Fetching NEA weather data...") ;;
                response <- fetch CONFIG.WEATHER_FORECAST outcome ;;
                (if negb (ok response)
                 then throw (HttpError (status response))
                 else ret tt) ;;
                data <- response_json response ;;
                weatherData <- parse today data ;;
                modify (set_weatherCache weatherData) ;;
                modify (set_lastFetchTime now) ;;
                renderWeather weatherData ;;
                announceOnPage false "Weather forecast updated")
               (fun err =>
                  emit (ConsoleError "Weather fetch error:" err) ;;
                  announceOnPage false
                    "Could not load weather data. Showing cached data." ;;
                  cache <- get weatherCache ;;
                  match cache with
                  | Some cached => renderWeather cached
                  | None => renderWeatherFallback
                  end) s)
        = Throw TypeError).
    { intros s.
      unfold try_catch, bind, fetch, response_json, emit, announceOnPage,
        throw, ret, modify.
      destruct outcome as [| r]; cbn; [reflexivity |].
      destruct (negb (ok r)); cbn; [reflexivity |].
      destruct (body r) as [data |]; cbn; [| reflexivity].
      destruct (parseNEAResponse_total weekdayShort monthDay today data)
        as (weatherData & warns & _ & Hparse).
      rewrite Hparse. cbn. rewrite renderWeather_run. reflexivity. }
    unfold fetchWeatherOnPage, try_catch at 1, bind at 1 2, get. cbn.
    destruct (weatherCache w) as [cached |]; [rewrite Hre |];
      match goal with
      | |- context [match ?m ?s with _ => _ end] =>
          specialize (Hgo {| this := w; effects := [] |})
      end;
      unfold try_catch in Hgo; exact Hgo.
Qed.

(** X5. An execution announces exactly as often as it asks the network:
    served from the cache it is silent, otherwise it makes one network
    access and one announcement, either the success or the degraded
    one. *)
Theorem one_announcement_per_network_access now today outcome w :
  let r := run now today outcome w in
  (networkAccesses (trace r) = 0%nat /\ announcements (trace r) = []) \/
  (networkAccesses (trace r) = 1%nat /\
   (announcements (trace r) = [Announce updated_message] \/
    announcements (trace r) = [Announce degraded_message])).
Proof.
  intros r. subst r.
  destruct (refresh_paths now today outcome w)
    as [(cached & _ & _ & ->) | [(err & _ & _ & ->)
                                | (weatherData & warns & _ & Hwarns & ->)]];
    unfold trace; cbn [snd effects].
  - left.
    change (ConsoleLog "Using cached weather data" :: renderLog w)
      with ([ConsoleLog "Using cached weather data"] ++ renderLog w)%list.
    rewrite networkAccesses_app, announcements_app.
    now rewrite networkAccesses_renderLog, announcements_renderLog.
  - right. rewrite networkAccesses_app, announcements_app.
    destruct (weatherCache w);
      rewrite ?networkAccesses_renderLog, ?announcements_renderLog;
      split; [reflexivity | right; reflexivity
             | reflexivity | right; reflexivity].
  - right.
    rewrite !networkAccesses_app, !announcements_app.
    rewrite networkAccesses_renderLog, announcements_renderLog.
    rewrite (networkAccesses_warns warns Hwarns).
    rewrite (announcements_warns warns Hwarns).
    split; [reflexivity | left; reflexivity].
Qed.

(* ------------------------------------------------------------------ *)
(** *** Executions in a row *)

Lemma executions_step now today outcome rest w tr :
  executions weekdayShort monthDay ((now, today, outcome) :: rest)
    {| this := w; effects := tr |} =
  executions weekdayShort monthDay rest
    {| this := after (run now today outcome w);
       effects := tr ++ trace (run now today outcome w) |}.
Proof.
  cbn [executions]. unfold refresh, after, trace.
  now rewrite (framed_fetchWeather now today outcome w tr).
Qed.

(** An execution made when the cache is absent or out of date asks the
    network once, and leaves a cache that is absent or no younger than
    the execution. *)
Lemma refresh_stale now today outcome w :
  weatherCache w = None \/ lastFetchTime w + 600000 <= now ->
  networkAccesses (trace (run now today outcome w)) = 1%nat /\
  (weatherCache (after (run now today outcome w)) = None \/
   lastFetchTime (after (run now today outcome w)) <= now).
Proof.
  intros Hstale.
  destruct (refresh_paths now today outcome w)
    as [(cached & Hcache & Hfresh & _)
       | [(err & _ & _ & ->) | (weatherData & warns & _ & Hwarns & ->)]].
  - exfalso. unfold CONFIG.WEATHER_CACHE_TIME in Hfresh.
    destruct Hstale as [Hnone | Hold]; [congruence | lia].
  - unfold after, trace. cbn [snd this effects].
    rewrite rendered_weatherCache, rendered_lastFetchTime.
    rewrite networkAccesses_app. split.
    + destruct (weatherCache w);
        rewrite ?networkAccesses_renderLog; reflexivity.
    + destruct Hstale as [Hnone | Hold]; [now left | right; lia].
  - unfold after, trace. cbn [snd this effects].
    rewrite rendered_lastFetchTime.
    rewrite !networkAccesses_app, networkAccesses_renderLog.
    rewrite (networkAccesses_warns warns Hwarns).
    split; [reflexivity | right; cbn; lia].
Qed.

(** X6. Executions whose clock readings are at least 600000 ms apart,
    the period [init()] gives its interval timer, are never served from
    the cache: each one asks the network exactly once, whatever the
    earlier ones were answered. *)
Theorem spaced_executions_all_refetch
    (runs : list (Z * Z * FetchOutcome)) (prev : Z)
    (w : WeatherManager) (tr : list event) :
  weatherCache w = None \/ lastFetchTime w <= prev ->
  spacedFrom 600000 prev (map (fun r => fst (fst r)) runs) ->
  networkAccesses
    (effects (executions weekdayShort monthDay runs
                {| this := w; effects := tr |}))
  = (networkAccesses tr + List.length runs)%nat.
Proof.
  revert prev w tr.
  induction runs as [| [[now today] outcome] rest IH];
    intros prev w tr Hcache Hspaced.
  - cbn [executions effects List.length]. now rewrite Nat.add_0_r.
  - cbn [map fst spacedFrom] in Hspaced. destruct Hspaced as [Hgap Hrest].
    rewrite executions_step.
    assert (Hstale : weatherCache w = None \/ lastFetchTime w + 600000 <= now).
    { destruct Hcache as [Hnone | Hold]; [now left | right; lia]. }
    destruct (refresh_stale now today outcome w Hstale) as [Hone Hafter].
    rewrite (IH now _ _ Hafter Hrest).
    rewrite networkAccesses_app, Hone. cbn [List.length]. lia.
Qed.

(** X7. An empty forecast list is a forecast: on a body of the
    documented shape with [forecasts: []] the refresh caches the empty
    list, empties the grid and announces success; for the following
    600000 ms every refresh shows that empty grid without asking the
    network. *)
Theorem empty_forecast_list_is_cached now today r data w :
  refetches w now ->
  ok r = true ->
  body r = Some data ->
  forecastsOf data = Some [] ->
  let r1 := run now today (Responded r) w in
  weatherCache (after r1) = Some [] /\
  shows "" w (after r1) /\
  announcements (trace r1) = [Announce updated_message] /\
  forall now' today' outcome',
    now' - now < 600000 ->
    let r2 := run now' today' outcome' (after r1) in
    networkAccesses (trace r2) = 0%nat /\
    shows "" (after r1) (after r2).
Proof.
  intros Hre Hok Hbody Hshape r1.
  assert (Hparse' : forall s,
            parse today data s =
            (Normal [], {| this := this s; effects := effects s ++ [] |})).
  { intros s.
    rewrite (parseNEAResponse_forecastsOf today data [] Hshape).
    unfold try_catch, lift. cbn [firstn mapIndexed].
    now rewrite app_nil_r, sys_eta. }
  assert (Hr1 : r1 = _)
    by exact (refresh_fetched weekdayShort monthDay now today r data [] []
                w Hre Hok Hbody Hparse').
  assert (Hcache : weatherCache (after r1) = Some []).
  { rewrite Hr1. unfold after. cbn [snd this].
    now rewrite rendered_weatherCache. }
  assert (Htime : lastFetchTime (after r1) = now).
  { rewrite Hr1. unfold after. cbn [snd this].
    now rewrite rendered_lastFetchTime. }
  split; [exact Hcache |]. split; [| split].
  - rewrite Hr1. unfold after. cbn [snd this].
    destruct w as [[html |] cache last]; reflexivity.
  - rewrite Hr1. unfold trace. cbn [snd effects].
    rewrite !announcements_app, announcements_renderLog. reflexivity.
  - intros now' today' outcome' Hwithin r2. subst r2.
    set (w1 := after r1) in *.
    assert (Hage : now' - lastFetchTime w1 < CONFIG.WEATHER_CACHE_TIME).
    { rewrite Htime. exact Hwithin. }
    rewrite (refresh_cached weekdayShort monthDay now' today' outcome' w1 []
               Hcache Hage).
    cbn [after trace snd this effects]. split.
    + change (ConsoleLog "Using cached weather data" :: renderLog w1)
        with ([ConsoleLog "Using cached weather data"] ++ renderLog w1)%list.
      now rewrite networkAccesses_app, networkAccesses_renderLog.
    + apply (rendered_shows (cards []) w1).
Qed.

End WeatherCoverage.

(* ================================================================== *)
(** ** Substrings, the keyword chains and the cards *)

Lemma append_empty_r (s : string) : (s ++ "")%string = s.
Proof. induction s as [| c s IH]; cbn; [reflexivity | now rewrite IH]. Qed.

Lemma append_associative (a b c : string) :
  ((a ++ b) ++ c)%string = (a ++ (b ++ c))%string.
Proof. induction a as [| x a IH]; cbn; [reflexivity | now rewrite IH]. Qed.

Lemma prefix_append (p s : string) : String.prefix p (p ++ s) = true.
Proof.
  induction p as [| c p IH]; cbn.
  - now destruct s.
  - destruct (ascii_dec c c); [exact IH | congruence].
Qed.

Lemma prefix_split (p s : string) :
  String.prefix p s = true -> exists rest, s = (p ++ rest)%string.
Proof.
  revert s. induction p as [| c p IH]; intros s Hprefix.
  - now exists s.
  - destruct s as [| d s]; cbn in Hprefix; [discriminate |].
    destruct (ascii_dec c d) as [<- |]; [| discriminate].
    destruct (IH s Hprefix) as [rest ->]. now exists rest.
Qed.

(** [includes] is the substring test. *)
Lemma includes_intro (before p rest : string) :
  includes (before ++ p ++ rest) p = true.
Proof.
  induction before as [| c before IH]; cbn.
  - destruct (p ++ rest)%string as [| d tail] eqn:Hshape.
    + destruct p; [reflexivity | discriminate].
    + cbn [includes]. rewrite <- Hshape, prefix_append. reflexivity.
  - cbn [includes]. rewrite IH. apply orb_true_r.
Qed.

Lemma includes_split (s p : string) :
  includes s p = true ->
  exists before rest, s = (before ++ p ++ rest)%string.
Proof.
  induction s as [| c s IH]; cbn [includes]; intros Hin.
  - destruct p; [| discriminate]. now exists "", "".
  - apply orb_true_iff in Hin. destruct Hin as [Hprefix | Hlater].
    + destruct (prefix_split p (String c s) Hprefix) as [rest Hrest].
      exists "", rest. exact Hrest.
    + destruct (IH Hlater) as (before & rest & ->).
      now exists (String c before), rest.
Qed.

Lemma includes_trans (s p q : string) :
  includes s p = true -> includes p q = true -> includes s q = true.
Proof.
  intros Hsp Hpq.
  destruct (includes_split s p Hsp) as (a & b & ->).
  destruct (includes_split p q Hpq) as (c & d & ->).
  replace (a ++ (c ++ q ++ d) ++ b)%string
    with ((a ++ c) ++ q ++ (d ++ b))%string.
  - apply includes_intro.
  - now rewrite !append_associative.
Qed.

Lemma toLowerCase_append (a b : string) :
  toLowerCase (a ++ b) = (toLowerCase a ++ toLowerCase b)%string.
Proof. induction a as [| c a IH]; cbn; [reflexivity | now rewrite IH]. Qed.

(** X8. A forecast text in which "sunny" or "fine" occurs, in any
    letter case and whatever surrounds it, is given the condition Sunny
    and the sun glyph. *)
Theorem sunny_or_fine_in_any_case (before keyword rest : string) :
  toLowerCase keyword = "sunny" \/ toLowerCase keyword = "fine" ->
  mapWeatherCondition (before ++ keyword ++ rest) = "Sunny" /\
  getWeatherEmoji (before ++ keyword ++ rest) = Glyph.sunny.
Proof.
  intros Hkeyword.
  assert (Hfirst :
    includes (toLowerCase (before ++ keyword ++ rest)) "sunny"
    || includes (toLowerCase (before ++ keyword ++ rest)) "fine" = true).
  { rewrite !toLowerCase_append.
    destruct Hkeyword as [-> | ->].
    - now rewrite includes_intro.
    - rewrite (includes_intro _ "fine"). apply orb_true_r. }
  unfold mapWeatherCondition, getWeatherEmoji.
  now rewrite Hfirst.
Qed.

(** X9. The condition is one of the seven labels or the forecast text
    itself, and mapping a condition again changes nothing. *)
Theorem mapWeatherCondition_idempotent (forecast : string) :
  (mapWeatherCondition forecast = forecast \/
   In (mapWeatherCondition forecast)
     ["Sunny"; "Partly Cloudy"; "Cloudy"; "Rainy"; "Thundery"; "Showers";
      "Windy"]) /\
  mapWeatherCondition (mapWeatherCondition forecast)
  = mapWeatherCondition forecast.
Proof.
  assert (Hrange :
    mapWeatherCondition forecast = forecast \/
    In (mapWeatherCondition forecast)
      ["Sunny"; "Partly Cloudy"; "Cloudy"; "Rainy"; "Thundery"; "Showers";
       "Windy"]).
  { unfold mapWeatherCondition.
    repeat match goal with
           | |- context [if ?b then _ else _] => destruct b
           end; cbn; auto 10. }
  split; [exact Hrange |].
  destruct Hrange as [Hsame | Hlabel].
  - now rewrite Hsame.
  - cbn in Hlabel.
    repeat (destruct Hlabel as [<- | Hlabel]; [reflexivity |]).
    destruct Hlabel.
Qed.

Lemma cards_cons (weather : ForecastDay) (rest : list ForecastDay) :
  cards (weather :: rest) = (card weather ++ cards rest)%string.
Proof.
  unfold cards. cbn [map String.concat].
  destruct (map card rest) as [| next more] eqn:Hrest.
  - cbn. now rewrite append_empty_r.
  - reflexivity.
Qed.

Lemma includes_here (p rest : string) : includes (p ++ rest) p = true.
Proof. exact (includes_intro "" p rest). Qed.

Lemma includes_skip (s t p : string) :
  includes t p = true -> includes (s ++ t) p = true.
Proof.
  intros Hin. destruct (includes_split t p Hin) as (a & b & ->).
  rewrite <- append_associative. apply includes_intro.
Qed.

Lemma card_fields (weather : ForecastDay) :
  includes (card weather) (day weather) = true /\
  includes (card weather) (date weather) = true /\
  includes (card weather) (emoji weather) = true /\
  includes (card weather) (condition weather) = true.
Proof.
  unfold card.
  repeat split;
    repeat first [apply includes_here | apply includes_skip].
Qed.

(** X10. Every record of a rendered forecast has its day name, date,
    glyph and condition in the grid: the four fields are written out as
    they are, unescaped. *)
Theorem cards_show_fields (data : list ForecastDay) (weather : ForecastDay) :
  In weather data ->
  includes (cards data) (day weather) = true /\
  includes (cards data) (date weather) = true /\
  includes (cards data) (emoji weather) = true /\
  includes (cards data) (condition weather) = true.
Proof.
  intros Hin.
  assert (Hcard : includes (cards data) (card weather) = true).
  { induction data as [| first rest IH]; [destruct Hin |].
    rewrite cards_cons. destruct Hin as [-> | Hin].
    - apply includes_here.
    - apply includes_skip. now apply IH. }
  destruct (card_fields weather) as (Hday & Hdate & Hemoji & Hcondition).
  repeat split; eapply includes_trans; eassumption.
Qed.

(** X11. The grid does not depend on the forecast texts: two forecasts
    whose records agree on day, date, glyph and condition are rendered
    to the same HTML. *)
Theorem cards_ignore_forecast_text (data data' : list ForecastDay) :
  map (fun w => (day w, date w, emoji w, condition w)) data
  = map (fun w => (day w, date w, emoji w, condition w)) data' ->
  cards data = cards data'.
Proof.
  revert data'.
  induction data as [| w rest IH]; intros [| w' rest'] Hsame;
    try discriminate.
  - reflexivity.
  - cbn [map] in Hsame. injection Hsame as Hday Hdate Hemoji Hcondition Hrest.
    rewrite !cards_cons, (IH rest' Hrest).
    unfold card. now rewrite Hday, Hdate, Hemoji, Hcondition.
Qed.

(* ================================================================== *)
(** ** Further properties of [debounce] *)

Section DebounceCoverage.

Import EventLoop.

Variable A : Type.

Lemma subsequence_refl (xs : list A) : subsequence xs xs.
Proof. induction xs; now constructor. Qed.

Lemma subsequence_snoc_skip (xs ys : list A) (a : A) :
  subsequence xs ys -> subsequence xs (ys ++ [a]).
Proof.
  induction 1 as [| xs y ys _ IH | x xs ys _ IH]; cbn.
  - apply subsequence_skip, subsequence_nil.
  - now apply subsequence_skip.
  - now apply subsequence_take.
Qed.

Lemma subsequence_snoc_take (xs ys : list A) (a : A) :
  subsequence xs ys -> subsequence (xs ++ [a]) (ys ++ [a]).
Proof.
  induction 1 as [| xs y ys _ IH | x xs ys _ IH]; cbn.
  - apply subsequence_take, subsequence_nil.
  - now apply subsequence_skip.
  - now apply subsequence_take.
Qed.

(** What holds all along a run: the table is the closure's own, and
    either no timer is pending and the last call, if any, has been
    applied, or one timer is pending, for the last call. *)
Lemma debounceRun_invariant (delay : Z) st (calls : list A) :
  debounceRun delay st calls ->
  ownsTimers (fst st) (snd st) /\
  ((pending (snd st) = [] /\
    subsequence (applied (snd st)) calls /\
    (calls = [] \/
     exists calls0 done a,
       calls = (calls0 ++ [a])%list /\
       applied (snd st) = (done ++ [a])%list))
   \/
   (exists tm calls0,
      pending (snd st) = [tm] /\
      calls = (calls0 ++ [args tm])%list /\
      subsequence (applied (snd st)) calls0)).
Proof.
  induction 1 as [t0 | [d l] calls a t Hrun [Hown IH] Hclock
                 | d l calls tm t Hrun [Hown IH] Hin Hdue Hclock].
  - split; [intros tm [] |]. left. cbn. repeat split; [constructor | now left].
  - cbn [fst snd] in *.
    destruct (invoke_pending A d l a t Hown) as (Hp & Ha & _ & _ & _).
    split; [now apply ownsTimers_invoke |].
    right. eexists. exists calls. split; [exact Hp |].
    split; [reflexivity |]. rewrite Ha.
    destruct IH as [(_ & Hsub & _) | (tm & calls0 & _ & -> & Hsub)].
    + exact Hsub.
    + now apply subsequence_snoc_skip.
  - cbn [fst snd] in *.
    split; [now apply ownsTimers_fire |].
    destruct IH as [(Hnone & _) | (tm0 & calls0 & Hone & -> & Hsub)].
    + rewrite Hnone in Hin. destruct Hin.
    + rewrite Hone in Hin. destruct Hin as [<- | []].
      left. cbn [pending applied fire]. rewrite Hone.
      split; [apply drop_single |].
      split; [now apply subsequence_snoc_take |].
      right. now exists calls0, (applied l), (args tm0).
Qed.

(** X12. All along a run of a debounced function at most one timer is
    pending; [func] has been applied only to arguments the closure was
    called with, in the order of the calls and at most once per call;
    and when no timer is pending, the last call made is the last one
    applied. *)
Theorem debounce_applies_calls_in_order
    (delay : Z) (d : debounced) (l : loop A) (calls : list A) :
  debounceRun delay (d, l) calls ->
  (List.length (pending l) <= 1)%nat /\
  subsequence (applied l) calls /\
  (pending l = [] -> forall calls0 a,
     calls = (calls0 ++ [a])%list ->
     exists done, applied l = (done ++ [a])%list).
Proof.
  intros Hrun.
  destruct (debounceRun_invariant delay (d, l) calls Hrun) as [_ Hinv].
  cbn [fst snd] in Hinv.
  destruct Hinv as [(Hnone & Hsub & Hlast)
                   | (tm & calls0 & Hone & -> & Hsub)].
  - rewrite Hnone. split; [cbn; lia |]. split; [exact Hsub |].
    intros _ calls0 a ->.
    destruct Hlast as [Hempty | (calls1 & done & b & Hcalls & Hdone)].
    + destruct calls0; discriminate.
    + apply app_inj_tail in Hcalls. destruct Hcalls as [_ ->].
      now exists done.
  - rewrite Hone. split; [cbn; lia |].
    split; [now apply subsequence_snoc_skip |].
    discriminate.
Qed.

Lemma last_cons {B : Type} (x d : B) (xs : list B) :
  last (x :: xs) d = last xs x.
Proof.
  revert x d. induction xs as [| y ys IH]; intros x d; [reflexivity |].
  change (last (x :: y :: ys) d) with (last (y :: ys) d).
  now rewrite !IH.
Qed.

(** A timer that is not due before the next call does not fire before
    it. *)
Lemma fires_before_due (l l1 : loop A) (tm : timer A) (t : Z) :
  pending l = [tm] -> fires l l1 -> clock l1 <= t -> t < due tm -> l1 = l.
Proof.
  intros Hone Hfires Hclock Hdue.
  destruct (fires_single A l l1 tm Hfires Hone)
    as [-> | (t' & Hdue' & _ & ->)]; [reflexivity |].
  cbn [clock fire] in Hclock. lia.
Qed.

(** X13. A burst of calls of a debounced function, each less than the
    delay after the one before it: however the host schedules, once no
    timer is left [func] has been applied exactly once more, to the
    arguments of the last call of the burst, no earlier than the delay
    after that call. *)
Theorem debounce_burst_runs_last
    (rest : list (A * Z)) (d : debounced) (l : loop A)
    (a0 : A) (t0 : Z) st' (l2 : loop A) :
  ownsTimers d l ->
  burst (invoke a0 t0 (d, l)) rest st' ->
  within (delay d) t0 (map snd rest) ->
  fires (snd st') l2 ->
  pending l2 = [] ->
  applied l2 = (applied l ++ [last (map fst rest) a0])%list /\
  last (map snd rest) t0 + delay d <= clock l2.
Proof.
  revert d l a0 t0.
  induction rest as [| [a1 t1] rest IH];
    intros d l a0 t0 Hown Hburst Hwithin Hfires Hdone.
  - inversion Hburst; subst. cbn [map last].
    destruct (invoke_pending A d l a0 t0 Hown) as (Hp & Ha & _ & _ & _).
    destruct (fires_single A _ l2 _ Hfires Hp)
      as [-> | (t & Hdue & _ & ->)].
    + rewrite Hp in Hdone. discriminate.
    + cbn [due] in Hdue. cbn [applied clock fire args].
      rewrite Ha. split; [reflexivity | lia].
  - cbn [map snd fst within] in Hwithin. destruct Hwithin as [Hgap Hrest].
    destruct (invoke_pending A d l a0 t0 Hown) as (Hp & Ha & _ & _ & Hd).
    destruct (invoke a0 t0 (d, l)) as [d1 l0] eqn:Hcall.
    cbn [fst snd] in Hp, Ha, Hd.
    inversion Hburst as [| d' l' l1 a' t' rest' st'' Hf Hclock Hnext];
      subst.
    assert (Hl1 : l1 = l0).
    { apply (fires_before_due l0 l1 _ t1 Hp Hf Hclock). cbn [due]. lia. }
    subst l1.
    assert (Hown1 : ownsTimers (mkDebounced (delay d) (Some (nextId l))) l0).
    { pose proof (ownsTimers_invoke A d l a0 t0 Hown) as H.
      now rewrite Hcall in H. }
    destruct (IH _ l0 a1 t1 Hown1 Hnext Hrest Hfires Hdone)
      as [Happlied Htime].
    rewrite Ha in Happlied. cbn [delay] in Htime.
    cbn [map fst snd]. rewrite !last_cons.
    split; [exact Happlied | exact Htime].
Qed.

End DebounceCoverage.

(* ================================================================== *)
(** ** Properties of [throttle] *)

Section ThrottleProperties.

Import Throttle.

Variable A : Type.

Lemma apart_snoc (gap : Z) (times : list Z) (u : Z) :
  apart gap times ->
  (forall t, In t times -> t + gap <= u) ->
  apart gap (times ++ [u]).
Proof.
  induction times as [| t rest IH]; intros Hapart Hall.
  - cbn. tauto.
  - cbn [app apart] in *. destruct Hapart as [Hnext Hrest]. split.
    + destruct rest as [| v rest']; cbn [app].
      * apply Hall. now left.
      * exact Hnext.
    + apply IH; [exact Hrest |]. intros t' Hin. apply Hall. now right.
Qed.

(** A call in which [func] returns without calling the closure. *)
Lemma invoke_quiet (a : A) (t : Z) (st : throttled A) :
  fst (invoke a quiet t st) =
  if inThrottle st then
    {| limit := limit st; inThrottle := true; clock := t;
       resets := resets st; applied := applied st |}
  else
    {| limit := limit st; inThrottle := true; clock := t;
       resets := resets st ++ [t + limit st];
       applied := applied st ++ [(a, t)] |}.
Proof. unfold quiet. cbn. destruct (inThrottle st); reflexivity. Qed.

(** What holds all along a run in which [func] always returns and never
    calls the closure: while [inThrottle] is set exactly one timer is
    pending, due [limit] after the last application, and every earlier
    application lies [limit] before that one; while it is not set no
    timer is pending and every application lies [limit] back. *)
Lemma run_invariant (lim : Z) (st : throttled A) :
  run lim (fun beh => beh = quiet) st ->
  limit st = lim /\
  apart lim (map snd (applied st)) /\
  ((inThrottle st = true /\
    exists done a t,
      applied st = (done ++ [(a, t)])%list /\
      resets st = [t + lim] /\ t <= clock st /\
      forall u, In u (map snd done) -> u + lim <= t)
   \/
   (inThrottle st = false /\ resets st = [] /\
    forall t, In t (map snd (applied st)) -> t + lim <= clock st)).
Proof.
  induction 1 as [t0 | st a beh t Hrun (Hlim & Hapart & Hstate) -> Hclock
                 | st due t Hrun (Hlim & Hapart & Hstate) Hin Hdue Hclock].
  - cbn. repeat split. right. repeat split. intros t [].
  - rewrite invoke_quiet.
    destruct Hstate as [(Hset & done & a' & t' & Happ & Hres & Hle & Hback)
                       | (Hclear & Hnone & Hback)];
      rewrite ?Hset, ?Hclear;
      cbn [limit applied inThrottle resets clock].
    + split; [exact Hlim |]. split; [exact Hapart |].
      left. split; [reflexivity |].
      exists done, a', t'. repeat split; try assumption. lia.
    + split; [exact Hlim |]. split.
      * rewrite map_app. cbn [map snd]. apply apart_snoc; [exact Hapart |].
        intros u Hu. specialize (Hback u Hu). lia.
      * left. split; [reflexivity |].
        exists (applied st), a, t. rewrite Hnone, Hlim.
        repeat split; [lia |].
        intros u Hu. specialize (Hback u Hu). lia.
  - unfold fire. cbn [limit applied inThrottle resets clock].
    split; [exact Hlim |]. split; [exact Hapart |].
    right. split; [reflexivity |].
    destruct Hstate as [(Hset & done & a' & t' & Happ & Hres & Hle & Hback)
                       | (Hclear & Hnone & Hback)].
    + rewrite Hres in Hin. destruct Hin as [<- | []].
      rewrite Hres. cbn [removeOne]. rewrite Z.eqb_refl.
      split; [reflexivity |].
      intros u Hu. rewrite Happ, map_app in Hu. cbn [map snd] in Hu.
      apply in_app_or in Hu. destruct Hu as [Hu | [<- | []]]; [| lia].
      specialize (Hback u Hu). lia.
    + rewrite Hnone in Hin. destruct Hin.
Qed.

(** X14. As long as [func] returns and does not call the closure
    itself, applications of a throttled function are at least [limit] ms
    apart: between one application and the next the timer set by the
    first has fired, and it fires no earlier than [limit] after it. An
    application that raises sets neither the flag nor a timer: the call
    raises, and the next call, be it at the same instant, is applied
    too. *)
Theorem throttle_applications_apart (lim : Z) (st : throttled A) :
  run lim (fun beh => beh = quiet) st ->
  apart lim (map snd (applied st)) /\
  (inThrottle st = false ->
   forall a b t,
     snd (invoke a (Behaviour [] true) t st) = true /\
     inThrottle (fst (invoke a (Behaviour [] true) t st)) = false /\
     resets (fst (invoke a (Behaviour [] true) t st)) = resets st /\
     applied (fst (invoke b quiet t
                     (fst (invoke a (Behaviour [] true) t st))))
     = (applied st ++ [(a, t); (b, t)])%list).
Proof.
  intros Hrun. split.
  - now destruct (run_invariant lim st Hrun) as (_ & H & _).
  - intros Hclear a b t. rewrite invoke_quiet.
    cbn. rewrite Hclear. cbn.
    repeat split; try assumption.
    now rewrite <- app_assoc.
Qed.

(** X15. As long as [func] returns and does not call the closure
    itself, a call made less than [limit] ms after the last application
    is dropped: [func] is not applied, whatever it would do, and no
    timer is set, so the call is never made up for later. A call made
    once the timer has fired is applied at once, and that is [limit] ms
    or more after the last application. *)
Theorem throttle_drops_calls_in_window
    (lim : Z) (st : throttled A) (done : list (A * Z))
    (a0 a : A) (t0 t : Z) :
  run lim (fun beh => beh = quiet) st ->
  applied st = (done ++ [(a0, t0)])%list ->
  clock st <= t ->
  (t < t0 + lim ->
   forall beh,
     applied (fst (invoke a beh t st)) = applied st /\
     resets (fst (invoke a beh t st)) = resets st /\
     snd (invoke a beh t st) = false) /\
  (inThrottle st = false ->
   applied (fst (invoke a quiet t st)) = (applied st ++ [(a, t)])%list /\
   t0 + lim <= t).
Proof.
  intros Hrun Hlast Hclock.
  destruct (run_invariant lim st Hrun)
    as (Hlim & _ & [(Hset & done' & a' & t' & Happ & Hres & Hle & Hback)
                   | (Hclear & Hnone & Hback)]).
  - split.
    + intros _ [nested raises]. cbn. rewrite Hset. cbn.
      repeat split.
    + rewrite Hset. discriminate.
  - assert (Hpast : t0 + lim <= clock st).
    { apply Hback. rewrite Hlast, map_app. apply in_or_app. right.
      now left. }
    split.
    + intros Hearly. lia.
    + intros _. rewrite invoke_quiet, Hclear. cbn.
      split; [reflexivity | lia].
Qed.

End ThrottleProperties.

(* ================================================================== *)
(** ** Properties of the menu and of the filter buttons *)

Section ElementProperties.

Import DOM.

Lemma contains_classAdd_same (token : string) (e : element) :
  contains token (classAdd token e) = true.
Proof.
  unfold classAdd. destruct (contains token e) eqn:Hhas; [exact Hhas |].
  unfold contains. cbn [classList]. rewrite existsb_app. cbn.
  rewrite String.eqb_refl. now rewrite orb_true_r.
Qed.

Lemma contains_classAdd_other (c token : string) (e : element) :
  c <> token -> contains c (classAdd token e) = contains c e.
Proof.
  intros Hother. unfold classAdd.
  destruct (contains token e); [reflexivity |].
  unfold contains. cbn [classList]. rewrite existsb_app. cbn.
  apply String.eqb_neq in Hother. rewrite Hother. now rewrite !orb_false_r.
Qed.

Lemma contains_classRemove_same (token : string) (e : element) :
  contains token (classRemove token e) = false.
Proof.
  unfold contains, classRemove. cbn [classList].
  induction (classList e) as [| c rest IH]; [reflexivity |].
  cbn [filter]. destruct (String.eqb token c) eqn:Heq; cbn [negb].
  - exact IH.
  - cbn [existsb]. now rewrite Heq, IH.
Qed.

Lemma contains_classRemove_other (c token : string) (e : element) :
  c <> token -> contains c (classRemove token e) = contains c e.
Proof.
  intros Hother. unfold contains, classRemove. cbn [classList].
  induction (classList e) as [| x rest IH]; [reflexivity |].
  cbn [filter existsb]. destruct (String.eqb token x) eqn:Heq; cbn [negb].
  - apply String.eqb_eq in Heq. subst x.
    apply String.eqb_neq in Hother. now rewrite Hother, IH.
  - cbn [existsb]. now rewrite IH.
Qed.

Lemma lookup_update_same (name value : string) attrs :
  lookup name (update name value attrs) = Some value.
Proof.
  induction attrs as [| [n v] rest IH]; cbn.
  - now rewrite String.eqb_refl.
  - destruct (String.eqb name n) eqn:Heq; cbn; now rewrite Heq.
Qed.

Lemma lookup_update_other (name other value : string) attrs :
  other <> name -> lookup other (update name value attrs) = lookup other attrs.
Proof.
  intros Hother. apply String.eqb_neq in Hother.
  induction attrs as [| [n v] rest IH]; cbn.
  - now rewrite Hother.
  - destruct (String.eqb name n) eqn:Heq; cbn.
    + apply String.eqb_eq in Heq. subst n. now rewrite Hother.
    + now rewrite IH.
Qed.

End ElementProperties.

Section NavigationProperties.

Import DOM NavigationManager.

(** The state of the menu as assistive technology is told. *)
Lemma handle_expanded (c : click) (nav : manager) :
  getAttribute "aria-expanded" (hamburger (fst (handle c nav)))
  = Some (if contains "active" (menu (fst (handle c nav)))
          then "true" else "false").
Proof.
  assert (Hclose :
    getAttribute "aria-expanded" (hamburger (fst (closeMenu nav)))
    = Some (if contains "active" (menu (fst (closeMenu nav)))
            then "true" else "false")).
  { cbn [closeMenu fst hamburger menu].
    rewrite contains_classRemove_same.
    unfold getAttribute, setAttribute. cbn [attributes].
    apply lookup_update_same. }
  destruct c; cbn [handle]; [| exact Hclose].
  unfold toggleMenu. destruct (contains "active" (menu nav)); [exact Hclose |].
  cbn [openMenu fst hamburger menu].
  rewrite contains_classAdd_same.
  unfold getAttribute, setAttribute. cbn [attributes].
  apply lookup_update_same.
Qed.

Lemma handleAll_cons (c : click) (rest : list click) (nav : manager) :
  handleAll (c :: rest) nav =
  (fst (handleAll rest (fst (handle c nav))),
   (snd (handle c nav) ++ snd (handleAll rest (fst (handle c nav))))%list).
Proof.
  cbn [handleAll]. destruct (handle c nav) as [nav1 tr1].
  cbn [fst snd]. now destruct (handleAll rest nav1).
Qed.

(** X16. After any clicks on the hamburger button and on the links of
    the menu, at least one, the button's [aria-expanded] attribute says
    whether the menu carries the class [active]. *)
Theorem aria_expanded_follows_menu (clicks : list click) (nav : manager) :
  clicks <> [] ->
  getAttribute "aria-expanded" (hamburger (fst (handleAll clicks nav)))
  = Some (if contains "active" (menu (fst (handleAll clicks nav)))
          then "true" else "false").
Proof.
  revert nav. induction clicks as [| c rest IH]; intros nav Hsome;
    [congruence |].
  rewrite handleAll_cons. cbn [fst].
  destruct rest as [| c' rest'].
  - cbn [handleAll fst]. apply handle_expanded.
  - apply IH. discriminate.
Qed.

(** X17. Two clicks on the hamburger button leave the menu open or
    closed as it was, with every other class of the menu kept, and
    announce the opening exactly once. *)
Theorem toggle_twice_restores_menu (nav : manager) :
  let r := handleAll [ClickHamburger; ClickHamburger] nav in
  (forall c, contains c (menu (fst r)) = contains c (menu nav)) /\
  snd r = [Announce "Navigation menu opened"].
Proof.
  intros r. subst r. rewrite !handleAll_cons.
  cbn [handleAll handle fst snd]. rewrite app_nil_r.
  destruct (contains "active" (menu nav)) eqn:Hopen.
  - assert (Hfirst : toggleMenu nav = closeMenu nav).
    { unfold toggleMenu. now rewrite Hopen. }
    rewrite Hfirst.
    assert (Hsecond : toggleMenu (fst (closeMenu nav))
                      = openMenu (fst (closeMenu nav))).
    { unfold toggleMenu. cbn [closeMenu fst menu].
      now rewrite contains_classRemove_same. }
    rewrite Hsecond. cbn [openMenu closeMenu fst snd menu app].
    split; [| reflexivity].
    intros c. destruct (String.eqb_spec c "active") as [-> | Hother].
    + now rewrite contains_classAdd_same, Hopen.
    + rewrite contains_classAdd_other by exact Hother.
      now apply contains_classRemove_other.
  - assert (Hfirst : toggleMenu nav = openMenu nav).
    { unfold toggleMenu. now rewrite Hopen. }
    rewrite Hfirst.
    assert (Hsecond : toggleMenu (fst (openMenu nav))
                      = closeMenu (fst (openMenu nav))).
    { unfold toggleMenu. cbn [openMenu fst menu].
      now rewrite contains_classAdd_same. }
    rewrite Hsecond. cbn [openMenu closeMenu fst snd menu app].
    split; [| reflexivity].
    intros c. destruct (String.eqb_spec c "active") as [-> | Hother].
    + now rewrite contains_classRemove_same, Hopen.
    + rewrite contains_classRemove_other by exact Hother.
      now apply contains_classAdd_other.
Qed.

End NavigationProperties.

Section FilterProperties.

Import DOM FilterManager.

Lemma nth_error_updateAt {B} (f : B -> B) (xs : list B) (i j : nat) :
  nth_error (updateAt i f xs) j =
  if Nat.eqb j i then option_map f (nth_error xs j) else nth_error xs j.
Proof.
  revert i j. induction xs as [| x rest IH]; intros i j.
  - destruct i, j; cbn; try reflexivity; now destruct (Nat.eqb j i).
  - destruct i as [| i], j as [| j]; cbn; try reflexivity.
    apply IH.
Qed.

Lemma length_updateAt {B} (f : B -> B) (xs : list B) (i : nat) :
  List.length (updateAt i f xs) = List.length xs.
Proof.
  revert i. induction xs as [| x rest IH]; intros [| i]; cbn;
    try reflexivity.
  now rewrite IH.
Qed.

(** X18. After [applyFilter] on a button of the list, that button and
    no other carries the class [active], and [aria-pressed] is "true" on
    it and "false" on every other button; the list keeps its length. *)
Theorem applyFilter_exactly_one_active
    (i : nat) (filterButtons buttons' : list element) (tr : list event) :
  applyFilter i filterButtons = Some (buttons', tr) ->
  List.length buttons' = List.length filterButtons /\
  forall j btn,
    nth_error buttons' j = Some btn ->
    contains "active" btn = Nat.eqb j i /\
    getAttribute "aria-pressed" btn
    = Some (if Nat.eqb j i then "true" else "false").
Proof.
  unfold applyFilter.
  set (clear := fun btn => setAttribute "aria-pressed" "false"
                             (classRemove "active" btn)).
  destruct (nth_error (map clear filterButtons) i) as [button |];
    [| discriminate].
  intros [= <- _]. split.
  - now rewrite length_updateAt, length_map.
  - intros j btn. rewrite nth_error_updateAt, nth_error_map.
    destruct (nth_error filterButtons j) as [old |]; cbn [option_map];
      destruct (Nat.eqb j i); try discriminate; intros [= <-].
    + split.
      * unfold setAttribute at 1. cbn [contains classList].
        apply contains_classAdd_same.
      * unfold getAttribute, setAttribute at 1. cbn [attributes].
        apply lookup_update_same.
    + unfold clear. split.
      * unfold setAttribute. cbn [contains classList].
        apply contains_classRemove_same.
      * unfold getAttribute, setAttribute. cbn [attributes].
        apply lookup_update_same.
Qed.

End FilterProperties.

(* ================================================================== *)
(** ** Properties of [Storage] *)

Section StorageProperties.

Import Storage.

Variable JSON_parse : string -> option json.
Variable JSON_stringify : json -> string.
Variable fits : storage -> string -> string -> bool.

Local Abbreviation get := (Storage.get JSON_parse).
Local Abbreviation set := (Storage.set JSON_stringify fits).

(** X19. What [Storage.set] stored, [Storage.get] returns: when the
    storage is available, the text fits the quota and [JSON.parse]
    reads the text [JSON.stringify] wrote back to the value, [set]
    answers [true] and a following [get] of the key answers the value,
    not the default, without a warning. *)
Theorem get_after_set (key : string) (value defaultValue : json)
    (s : storage) :
  available s = true ->
  fits s key (JSON_stringify value) = true ->
  JSON_parse (JSON_stringify value) = Some value ->
  JSON_stringify value <> "" ->
  fst (fst (set key value s)) = true /\
  get key defaultValue (snd (fst (set key value s))) = (value, []).
Proof.
  intros Havailable Hfits Hparse Hnonempty.
  unfold Storage.set, setItem. rewrite Havailable, Hfits.
  cbn [andb fst snd]. split; [reflexivity |].
  unfold Storage.get, getItem. cbn [available items].
  rewrite String.eqb_refl.
  apply String.eqb_neq in Hnonempty. rewrite Hnonempty.
  now rewrite Hparse.
Qed.

(** X20. [Storage.set] touches one key only, and nothing when it
    answers [false]: [get] of another key, or of any key after a
    refused [set], answers as it did before. *)
Theorem set_leaves_other_keys (key other : string)
    (value defaultValue : json) (s : storage) :
  other <> key \/ fst (fst (set key value s)) = false ->
  get other defaultValue (snd (fst (set key value s)))
  = get other defaultValue s.
Proof.
  unfold Storage.set, setItem.
  destruct (available s && fits s key (JSON_stringify value)) eqn:Hok;
    cbn [fst snd].
  - intros [Hother | Hfalse]; [| discriminate].
    unfold Storage.get, getItem. cbn [available items].
    apply String.eqb_neq in Hother. now rewrite Hother.
  - reflexivity.
Qed.

(** X21. [Storage.get] answers the default, and does not raise, when
    the storage is unavailable, when the key has no item, when the item
    is the empty string, and when the item is not JSON. *)
Theorem get_falls_back_to_default (key : string) (defaultValue : json)
    (s : storage) :
  available s = false \/
  items s key = None \/
  items s key = Some "" \/
  (exists item, items s key = Some item /\ JSON_parse item = None) ->
  fst (get key defaultValue s) = defaultValue.
Proof.
  unfold Storage.get, getItem.
  intros [Hblocked | [Hmissing | [Hempty | (item & Hitem & Hbad)]]].
  - now rewrite Hblocked.
  - destruct (available s); [| reflexivity]. now rewrite Hmissing.
  - destruct (available s); [| reflexivity]. now rewrite Hempty.
  - destruct (available s); [| reflexivity]. rewrite Hitem.
    destruct (String.eqb item ""); [reflexivity |]. now rewrite Hbad.
Qed.

(** X22. After [Storage.remove] of a key on an available storage,
    [get] of that key answers the default, and [get] of any other key
    answers as before. *)
Theorem get_after_remove (key other : string) (defaultValue : json)
    (s : storage) :
  available s = true ->
  fst (fst (remove key s)) = true /\
  get key defaultValue (snd (fst (remove key s))) = (defaultValue, []) /\
  (other <> key ->
   get other defaultValue (snd (fst (remove key s)))
   = get other defaultValue s).
Proof.
  intros Havailable. unfold remove, removeItem. rewrite Havailable.
  cbn [fst snd]. split; [reflexivity |].
  unfold Storage.get, getItem. cbn [available items]. rewrite Havailable.
  split.
  - now rewrite String.eqb_refl.
  - intros Hother. apply String.eqb_neq in Hother. now rewrite Hother.
Qed.

End StorageProperties.

(* ================================================================== *)
(** ** Concrete instances of the further properties *)

Lemma parse_documented_shape_witness :
  forecastsOf (bodyOf [entryOf "Fair"; entryOf "Thundery showers"])
  = Some [entryOf "Fair"; entryOf "Thundery showers"] /\
  map forecastText (firstn 4 [entryOf "Fair"; entryOf "Thundery showers"])
  = map Some ["Fair"; "Thundery showers"] /\
  exists ws,
    (forall s,
       parseNEAResponse sampleWeekday sampleMonthDay 10
         (bodyOf [entryOf "Fair"; entryOf "Thundery showers"]) s
       = (Normal ws, s)) /\
    map forecast ws = ["Fair"; "Thundery showers"] /\
    map day ws = ["Today"; "Tomorrow"].
Proof.
  split; [reflexivity |]. split; [reflexivity |].
  destruct (parse_documented_shape sampleWeekday sampleMonthDay 10
              (bodyOf [entryOf "Fair"; entryOf "Thundery showers"])
              [entryOf "Fair"; entryOf "Thundery showers"]
              ["Fair"; "Thundery showers"] eq_refl eq_refl)
    as (ws & Hparse & _ & Hforecast & _ & _ & Hday & _).
  exists ws. repeat split; assumption.
Defined.

Lemma parse_reads_four_entries_witness :
  firstn 4 [entryOf "Fair"; entryOf "Showers"; entryOf "Windy";
            entryOf "Cloudy"; entryOf "Hazy"]
  = firstn 4 [entryOf "Fair"; entryOf "Showers"; entryOf "Windy";
              entryOf "Cloudy"; JNull; JNum (inject_Z 3)] /\
  forall s,
    parseNEAResponse sampleWeekday sampleMonthDay 10
      (bodyOf [entryOf "Fair"; entryOf "Showers"; entryOf "Windy";
               entryOf "Cloudy"; entryOf "Hazy"]) s
    = parseNEAResponse sampleWeekday sampleMonthDay 10
        (bodyOf [entryOf "Fair"; entryOf "Showers"; entryOf "Windy";
                 entryOf "Cloudy"; JNull; JNum (inject_Z 3)]) s.
Proof.
  split; [reflexivity |].
  apply parse_reads_four_entries
    with (entries := [entryOf "Fair"; entryOf "Showers"; entryOf "Windy";
                      entryOf "Cloudy"; entryOf "Hazy"])
         (entries' := [entryOf "Fair"; entryOf "Showers"; entryOf "Windy";
                       entryOf "Cloudy"; JNull; JNum (inject_Z 3)]);
    reflexivity.
Defined.

Lemma parse_all_or_nothing_witness :
  In (JObj [("area", JStr "Singapore")])
    (firstn 4 [entryOf "Fair"; JObj [("area", JStr "Singapore")]]) /\
  forecastText (JObj [("area", JStr "Singapore")]) = None /\
  forall s,
    parseNEAResponse sampleWeekday sampleMonthDay 10
      (bodyOf [entryOf "Fair"; JObj [("area", JStr "Singapore")]]) s
    = (Normal getSimulatedWeather,
       {| this := this s; effects := effects s ++ parseWarning |}).
Proof.
  assert (Hin : In (JObj [("area", JStr "Singapore")])
                  (firstn 4 [entryOf "Fair";
                             JObj [("area", JStr "Singapore")]])).
  { right. now left. }
  split; [exact Hin |]. split; [reflexivity |].
  apply parse_all_or_nothing
    with (entries := [entryOf "Fair"; JObj [("area", JStr "Singapore")]])
         (entry := JObj [("area", JStr "Singapore")]);
    [reflexivity | exact Hin | reflexivity].
Defined.

Lemma spaced_executions_all_refetch_witness :
  spacedFrom 600000 (-600000) [0; 600000; 1200000] /\
  networkAccesses
    (effects
       (executions sampleWeekday sampleMonthDay
          [(0, 0, Rejected);
           (600000, 0, respond 200 (Some emptyItems));
           (1200000, 0, respond 200 (Some (bodyOf [entryOf "Fair"])))]
          {| this := constructor (Some ""); effects := [] |}))
  = 3%nat.
Proof.
  assert (Hspaced : spacedFrom 600000 (-600000) [0; 600000; 1200000]).
  { cbn. lia. }
  split; [exact Hspaced |].
  exact (spaced_executions_all_refetch sampleWeekday sampleMonthDay
           [(0, 0, Rejected);
            (600000, 0, respond 200 (Some emptyItems));
            (1200000, 0, respond 200 (Some (bodyOf [entryOf "Fair"])))]
           (-600000) (constructor (Some "")) []
           (or_introl eq_refl) Hspaced).
Defined.

Lemma empty_forecast_list_is_cached_witness :
  refetches (constructor (Some "loading")) 5000 /\
  forecastsOf (bodyOf []) = Some [] /\
  weatherGrid
    (after (refresh sampleWeekday sampleMonthDay 5000 0
              (respond 200 (Some (bodyOf [])))
              (constructor (Some "loading")))) = Some "" /\
  weatherCache
    (after (refresh sampleWeekday sampleMonthDay 5000 0
              (respond 200 (Some (bodyOf [])))
              (constructor (Some "loading")))) = Some [].
Proof.
  assert (Hre : refetches (constructor (Some "loading")) 5000).
  { now left. }
  split; [exact Hre |]. split; [reflexivity |].
  destruct (empty_forecast_list_is_cached sampleWeekday sampleMonthDay
              5000 0 {| status := 200; body := Some (bodyOf []) |}
              (bodyOf []) (constructor (Some "loading"))
              Hre eq_refl eq_refl eq_refl)
    as (Hcache & Hshows & _).
  split; [exact Hshows | exact Hcache].
Defined.

Lemma sunny_or_fine_in_any_case_witness :
  toLowerCase "FINE" = "fine" /\
  mapWeatherCondition ("Mostly " ++ "FINE" ++ " and warm") = "Sunny" /\
  getWeatherEmoji ("Mostly " ++ "FINE" ++ " and warm") = Glyph.sunny.
Proof.
  split; [reflexivity |].
  exact (sunny_or_fine_in_any_case "Mostly " "FINE" " and warm"
           (or_intror eq_refl)).
Defined.

Lemma cards_show_fields_witness :
  In {| day := "Wednesday"; date := "Dec 4"; condition := "Thundery";
        emoji := Glyph.thundery; forecast := "Thundery showers" |}
    getSimulatedWeather /\
  includes (cards getSimulatedWeather) "Wednesday" = true /\
  includes (cards getSimulatedWeather) "Thundery" = true.
Proof.
  assert (Hin :
    In {| day := "Wednesday"; date := "Dec 4"; condition := "Thundery";
          emoji := Glyph.thundery; forecast := "Thundery showers" |}
      getSimulatedWeather).
  { right. right. now left. }
  split; [exact Hin |].
  destruct (cards_show_fields getSimulatedWeather _ Hin)
    as (Hday & _ & _ & Hcondition).
  split; [exact Hday | exact Hcondition].
Defined.

Lemma cards_ignore_forecast_text_witness :
  cards [ {| day := "Today"; date := "Dec 1"; condition := "Windy";
             emoji := Glyph.wind; forecast := "Gusty at times" |} ]
  = cards staleForecast.
Proof.
  exact (cards_ignore_forecast_text
           [ {| day := "Today"; date := "Dec 1"; condition := "Windy";
                emoji := Glyph.wind; forecast := "Gusty at times" |} ]
           staleForecast eq_refl).
Defined.

Lemma debounce_applies_calls_in_order_witness :
  debounceRun 300
    (fst (EventLoop.invoke 2%nat 50
            (EventLoop.invoke 1%nat 0 (loadWeatherData, idleLoop))),
     EventLoop.fire (EventLoop.mkTimer 1%nat 350 2%nat) 350
       (snd (EventLoop.invoke 2%nat 50
               (EventLoop.invoke 1%nat 0 (loadWeatherData, idleLoop)))))
    [1%nat; 2%nat] /\
  subsequence
    (EventLoop.applied
       (EventLoop.fire (EventLoop.mkTimer 1%nat 350 2%nat) 350
          (snd (EventLoop.invoke 2%nat 50
                  (EventLoop.invoke 1%nat 0 (loadWeatherData, idleLoop))))))
    [1%nat; 2%nat].
Proof.
  assert (Hrun :
    debounceRun 300
      (fst (EventLoop.invoke 2%nat 50
              (EventLoop.invoke 1%nat 0 (loadWeatherData, idleLoop))),
       EventLoop.fire (EventLoop.mkTimer 1%nat 350 2%nat) 350
         (snd (EventLoop.invoke 2%nat 50
                 (EventLoop.invoke 1%nat 0 (loadWeatherData, idleLoop)))))
      [1%nat; 2%nat]).
  { apply (debounceRun_fire 300 _ _ [1%nat; 2%nat]
             (EventLoop.mkTimer 1%nat 350 2%nat) 350).
    - apply (debounceRun_call 300
               (EventLoop.invoke 1%nat 0 (loadWeatherData, idleLoop))
               [1%nat] 2%nat 50).
      + apply (debounceRun_call 300 (loadWeatherData, idleLoop)
                 [] 1%nat 0).
        * exact (debounceRun_start 300 0).
        * cbn. lia.
      + cbn. lia.
    - cbn. now left.
    - cbn. lia.
    - cbn. lia. }
  split; [exact Hrun |].
  exact (proj1 (proj2 (debounce_applies_calls_in_order nat 300 _ _ _ Hrun))).
Defined.

Lemma debounce_burst_runs_last_witness :
  ownsTimers loadWeatherData idleLoop /\
  within 300 0 [50; 120] /\
  EventLoop.applied
    (EventLoop.fire (EventLoop.mkTimer 2%nat 420 3%nat) 420
       (snd (EventLoop.invoke 3%nat 120
               (EventLoop.invoke 2%nat 50
                  (EventLoop.invoke 1%nat 0 (loadWeatherData, idleLoop))))))
  = [3%nat].
Proof.
  assert (Hown : ownsTimers loadWeatherData idleLoop).
  { intros tm []. }
  assert (Hwithin : within 300 0 [50; 120]).
  { cbn. lia. }
  split; [exact Hown |]. split; [exact Hwithin |].
  assert (Hburst :
    burst (EventLoop.invoke 1%nat 0 (loadWeatherData, idleLoop))
      [(2%nat, 50); (3%nat, 120)]
      (EventLoop.invoke 3%nat 120
         (EventLoop.invoke 2%nat 50
            (EventLoop.invoke 1%nat 0 (loadWeatherData, idleLoop))))).
  { apply (burst_call
             (fst (EventLoop.invoke 1%nat 0 (loadWeatherData, idleLoop)))
             (snd (EventLoop.invoke 1%nat 0 (loadWeatherData, idleLoop)))
             (snd (EventLoop.invoke 1%nat 0 (loadWeatherData, idleLoop)))
             2%nat 50).
    - apply EventLoop.fires_none.
    - cbn. lia.
    - apply (burst_call
               (fst (EventLoop.invoke 2%nat 50
                       (EventLoop.invoke 1%nat 0
                          (loadWeatherData, idleLoop))))
               (snd (EventLoop.invoke 2%nat 50
                       (EventLoop.invoke 1%nat 0
                          (loadWeatherData, idleLoop))))
               (snd (EventLoop.invoke 2%nat 50
                       (EventLoop.invoke 1%nat 0
                          (loadWeatherData, idleLoop))))
               3%nat 120).
      + apply EventLoop.fires_none.
      + cbn. lia.
      + apply burst_done. }
  assert (Hfires :
    EventLoop.fires
      (snd (EventLoop.invoke 3%nat 120
              (EventLoop.invoke 2%nat 50
                 (EventLoop.invoke 1%nat 0 (loadWeatherData, idleLoop)))))
      (EventLoop.fire (EventLoop.mkTimer 2%nat 420 3%nat) 420
         (snd (EventLoop.invoke 3%nat 120
                 (EventLoop.invoke 2%nat 50
                    (EventLoop.invoke 1%nat 0
                       (loadWeatherData, idleLoop))))))).
  { apply EventLoop.fires_next
      with (tm := EventLoop.mkTimer 2%nat 420 3%nat) (t := 420).
    - cbn. now left.
    - cbn. lia.
    - cbn. lia.
    - apply EventLoop.fires_none. }
  exact (proj1 (debounce_burst_runs_last nat [(2%nat, 50); (3%nat, 120)]
                  loadWeatherData idleLoop 1%nat 0 _ _
                  Hown Hburst Hwithin Hfires eq_refl)).
Defined.

Lemma throttle_applications_apart_witness :
  Throttle.run 100 (fun beh => beh = Throttle.quiet)
    (fst (Throttle.invoke 3%nat Throttle.quiet 130
       (Throttle.fire 100 120
          (fst (Throttle.invoke 2%nat Throttle.quiet 40
             (fst (Throttle.invoke 1%nat Throttle.quiet 0
                (Throttle.throttle nat 100 0)))))))) /\
  apart 100 [0; 130].
Proof.
  assert (Hrun :
    Throttle.run 100 (fun beh => beh = Throttle.quiet)
      (fst (Throttle.invoke 3%nat Throttle.quiet 130
         (Throttle.fire 100 120
            (fst (Throttle.invoke 2%nat Throttle.quiet 40
               (fst (Throttle.invoke 1%nat Throttle.quiet 0
                  (Throttle.throttle nat 100 0))))))))).
  { apply Throttle.run_call; [| reflexivity | cbn; lia].
    apply Throttle.run_fire; [| cbn; now left | lia | cbn; lia].
    apply Throttle.run_call; [| reflexivity | cbn; lia].
    apply Throttle.run_call; [| reflexivity | cbn; lia].
    apply Throttle.run_start. }
  split; [exact Hrun |].
  exact (proj1 (throttle_applications_apart nat 100 _ Hrun)).
Defined.

Lemma throttle_drops_calls_in_window_witness :
  Throttle.run 100 (fun beh => beh = Throttle.quiet)
    (fst (Throttle.invoke 1%nat Throttle.quiet 0
            (Throttle.throttle nat 100 0))) /\
  30 < 0 + 100 /\
  Throttle.applied
    (fst (Throttle.invoke 2%nat Throttle.quiet 30
       (fst (Throttle.invoke 1%nat Throttle.quiet 0
               (Throttle.throttle nat 100 0)))))
  = [(1%nat, 0)].
Proof.
  assert (Hrun :
    Throttle.run 100 (fun beh => beh = Throttle.quiet)
      (fst (Throttle.invoke 1%nat Throttle.quiet 0
              (Throttle.throttle nat 100 0)))).
  { apply Throttle.run_call;
      [apply Throttle.run_start | reflexivity | cbn; lia]. }
  assert (Hearly : 30 < 0 + 100) by lia.
  split; [exact Hrun |]. split; [exact Hearly |].
  assert (Hclock :
    Throttle.clock
      (fst (Throttle.invoke 1%nat Throttle.quiet 0
              (Throttle.throttle nat 100 0)))
    <= 30) by (cbn; lia).
  exact (proj1 (proj1 (throttle_drops_calls_in_window nat 100
                         (fst (Throttle.invoke 1%nat Throttle.quiet 0
                                 (Throttle.throttle nat 100 0)))
                         [] 1%nat 2%nat 0 30 Hrun eq_refl Hclock)
                  Hearly Throttle.quiet)).
Defined.

Lemma aria_expanded_follows_menu_witness :
  DOM.getAttribute "aria-expanded"
    (NavigationManager.hamburger
       (fst (NavigationManager.handleAll
               [NavigationManager.ClickHamburger;
                NavigationManager.ClickLink;
                NavigationManager.ClickHamburger] sampleNavigation)))
  = Some "true".
Proof.
  assert (Hsome : [NavigationManager.ClickHamburger;
                   NavigationManager.ClickLink;
                   NavigationManager.ClickHamburger] <> [])
    by discriminate.
  exact (aria_expanded_follows_menu _ sampleNavigation Hsome).
Defined.

Lemma applyFilter_exactly_one_active_witness :
  FilterManager.applyFilter 1 sampleButtons
  = Some ([DOM.mkElement ["filter-btn"]
             [("data-filter", "all"); ("aria-pressed", "false")];
           DOM.mkElement ["filter-btn"; "active"]
             [("data-filter", "nearby"); ("aria-pressed", "true")];
           DOM.mkElement ["filter-btn"] [("aria-pressed", "false")]],
          [Announce "Filter applied: nearby";
           ConsoleLog "Filter applied: nearby"]) /\
  DOM.contains "active"
    (DOM.mkElement ["filter-btn"]
       [("data-filter", "all"); ("aria-pressed", "false")]) = false.
Proof.
  split; [reflexivity |].
  exact (proj1 (proj2 (applyFilter_exactly_one_active 1 sampleButtons _ _
                         eq_refl)
                  0%nat _ eq_refl)).
Defined.

Lemma get_after_set_witness :
  Storage.available sampleStorage = true /\
  sampleParse (sampleStringify (JNum (inject_Z 7)))
  = Some (JNum (inject_Z 7)) /\
  Storage.get sampleParse "user_profile" JNull
    (snd (fst (Storage.set sampleStringify sampleFits "user_profile"
                 (JNum (inject_Z 7)) sampleStorage)))
  = (JNum (inject_Z 7), []).
Proof.
  split; [reflexivity |]. split; [reflexivity |].
  assert (Hnonempty : sampleStringify (JNum (inject_Z 7)) <> "")
    by discriminate.
  exact (proj2 (get_after_set sampleParse sampleStringify sampleFits
                  "user_profile" (JNum (inject_Z 7)) JNull sampleStorage
                  eq_refl eq_refl eq_refl Hnonempty)).
Defined.

Lemma set_leaves_other_keys_witness :
  "draft" <> "user_profile" /\
  Storage.get sampleParse "draft" JNull
    (snd (fst (Storage.set sampleStringify sampleFits "user_profile"
                 (JNum (inject_Z 7)) sampleStorage)))
  = Storage.get sampleParse "draft" JNull sampleStorage.
Proof.
  assert (Hother : "draft" <> "user_profile") by discriminate.
  split; [exact Hother |].
  exact (set_leaves_other_keys sampleParse sampleStringify sampleFits
           "user_profile" "draft" (JNum (inject_Z 7)) JNull sampleStorage
           (or_introl Hother)).
Defined.

Lemma get_falls_back_to_default_witness :
  Storage.items sampleStorage "draft" = Some "{oops" /\
  sampleParse "{oops" = None /\
  fst (Storage.get sampleParse "draft" (JStr "none") sampleStorage)
  = JStr "none".
Proof.
  split; [reflexivity |]. split; [reflexivity |].
  apply get_falls_back_to_default.
  right. right. right. exists "{oops". split; reflexivity.
Defined.

Lemma get_after_remove_witness :
  Storage.available sampleStorage = true /\
  Storage.get sampleParse "draft" JNull
    (snd (fst (Storage.remove "draft" sampleStorage)))
  = (JNull, []).
Proof.
  split; [reflexivity |].
  exact (proj1 (proj2 (get_after_remove sampleParse "draft" "draft" JNull
                         sampleStorage eq_refl))).
Defined.

Lemma refresh_never_raises_witness :
  refetches (constructor (Some "")) 1000 /\
  fst (fetchWeatherOnPage sampleWeekday sampleMonthDay false 1000 0
         (respond 200 (Some (bodyOf [entryOf "Fair"])))
         {| this := constructor (Some ""); effects := [] |})
  = Throw TypeError /\
  fst (fetchWeatherOnPage sampleWeekday sampleMonthDay true 1000 0
         (respond 200 (Some (bodyOf [entryOf "Fair"])))
         {| this := constructor (Some ""); effects := [] |})
  = Normal tt.
Proof.
  assert (Hre : refetches (constructor (Some "")) 1000) by now left.
  split; [exact Hre |].
  destruct (refresh_never_raises sampleWeekday sampleMonthDay 1000 0
              (respond 200 (Some (bodyOf [entryOf "Fair"])))
              (constructor (Some ""))) as (Hbody & _ & Hnone).
  split; [exact (Hnone Hre) | exact Hbody].
Defined.
